(** * RestWithGPS: the track-analysis pipeline of [restwithgps.py]

    A shallow embedding of the resampler ([AbstractPointStream.get_point]),
    the track analyzer ([get_stop_points]), the geometry primitives and the
    derived stop metrics, followed by the properties proved about them.

    Modelling conventions.
    - Python [float] is IEEE binary64: Rocq's primitive [float], whose
      [+ - * /], comparisons and [abs] are the same operations.  The
      functions of the [math] module that have no primitive counterpart
      ([sin], [cos], [acos], [atan2]) and the builtin [sum] over floats
      (whose rounding differs between CPython versions) are taken as an
      interface, class [PyMath]; every theorem holds for every instance.
    - A Python exception is a value of [exn]; a function that may raise
      returns in the error monad [exc].
    - [datetime.datetime] and [datetime.timedelta] are integers counting
      microseconds (the resolution of both types).  The calendar range of
      [datetime] (years 1..9999) is not modelled.
    - Python [int] is [Z].  Integers converted to [float] here are counts of
      seconds, minutes or list elements, far below the range where the
      conversion would overflow.
    - A float stored in a [Point] is a Python object: tuple equality
      ([pos0 == pos1] in [get_distance]) answers [True] for two elements that
      are the same object before it compares their values, which is visible
      for NaN.  [pyfloat] therefore pairs the IEEE value with an identity. *)

From Stdlib Require Import ZArith NArith List Lia Bool String Ascii.
From Stdlib Require Import Floats DecimalString.
Import ListNotations.

#[local] Set Warnings "-inexact-float".
#[local] Open Scope Z_scope.

(* ================================================================== *)
(** ** Exceptions *)

Inductive exn : Set :=
| ValueError
| ZeroDivisionError
| OverflowError
| IndexError.

Inductive exc (A : Type) : Type :=
| Ok (a : A)
| Raise (e : exn).

Arguments Ok {A} a.
Arguments Raise {A} e.

Definition bind {A B : Type} (c : exc A) (k : A -> exc B) : exc B :=
  match c with
  | Ok a => k a
  | Raise e => Raise e
  end.

Declare Scope exc_scope.
Delimit Scope exc_scope with exc.
Notation "x <- c ;; k" := (bind c (fun x => k))
  (at level 61, c at next level, right associativity) : exc_scope.
#[local] Open Scope exc_scope.

(* ================================================================== *)
(** ** Python numbers *)

(** [float(n)] for an [int]: the nearest binary64 value.  Below 2^53 in
    magnitude the conversion is exact and the primitive conversion of a
    63-bit integer computes it; beyond, the integer is rounded to nearest
    even. *)
Definition float_of_Z (n : Z) : float :=
  if Z.abs n <? 9007199254740992 then
    let m := PrimFloat.of_uint63 (Uint63.of_Z (Z.abs n)) in
    if n <? 0 then PrimFloat.opp m else m
  else SF2Prim (binary_normalize prec emax n 0 false).

(** [x / n] with [x] a float and [n] an int: [ZeroDivisionError] exactly
    when [n == 0]. *)
Definition float_div_int (x : float) (n : Z) : exc float :=
  if n =? 0 then Raise ZeroDivisionError
  else Ok (PrimFloat.div x (float_of_Z n)).

(** [a / b] with both operands ints (true division). *)
Definition int_truediv (a b : Z) : exc float :=
  float_div_int (float_of_Z a) b.

(** [int(x)]: truncation toward zero; NaN and the infinities raise. *)
Definition py_int (x : float) : exc Z :=
  match Prim2SF x with
  | S754_zero _ => Ok 0
  | S754_infinity _ => Raise OverflowError
  | S754_nan => Raise ValueError
  | S754_finite s m e =>
      let v := Z.shiftl (Z.pos m) e in
      Ok (if s then - v else v)
  end.

(** [str(n)] for an int, as an f-string renders it. *)
Definition str_of_int (n : Z) : string :=
  NilZero.string_of_int (Z.to_int n).

(** A float object: its identity and its IEEE value. *)
Record pyfloat : Set := PyFloat { ident : N; fval : float }.

(** Element comparison inside [tuple.__eq__]: identical objects are equal,
    otherwise IEEE [==] decides. *)
Definition is_or_eq (a b : pyfloat) : bool :=
  (ident a =? ident b)%N || PrimFloat.eqb (fval a) (fval b).

Definition position : Set := (pyfloat * pyfloat)%type.

(** [pos0 == pos1] on two 2-tuples of floats. *)
Definition tuple_eq (pos0 pos1 : position) : bool :=
  is_or_eq (fst pos0) (fst pos1) && is_or_eq (snd pos0) (snd pos1).

(** The part of the Python runtime the program calls and the model leaves
    open.  [math.sin], [math.cos] and [math.acos] raise [ValueError] on a
    domain error; [math.atan2] is total. *)
Class PyMath : Type := {
  math_sin : float -> exc float;
  math_cos : float -> exc float;
  math_acos : float -> exc float;
  math_atan2 : float -> float -> float;
  builtin_sum : list float -> float
}.

(** [math.radians(x)] is [x * (pi / 180.0)] in binary64. *)
Definition math_pi : float := 0x1.921fb54442d18p+1%float.
Definition radians (x : float) : float :=
  PrimFloat.mul x (PrimFloat.div math_pi 180%float).

(* ================================================================== *)
(** ** Time *)

(** Microseconds since an arbitrary epoch, and spans of microseconds. *)
Definition datetime : Set := Z.
Definition timedelta : Set := Z.

Definition timedelta_of_seconds (s : Z) : timedelta := s * 1000000.
Definition timedelta_of_minutes (m : Z) : timedelta := timedelta_of_seconds (m * 60).
Definition timedelta_of_hours (h : Z) : timedelta := timedelta_of_seconds (h * 3600).

(** The [.seconds] attribute of a normalised timedelta: the seconds within
    the day, 0..86399, without the days and without the microseconds. *)
Definition seconds (d : timedelta) : Z := (d / 1000000) mod 86400.

(* ================================================================== *)
(** ** Module constants *)

Definition POINT_INTERVAL_TIME : timedelta := timedelta_of_seconds 10.
Definition MIN_SPEED : float := 5.0%float.
Definition MIN_STOP : timedelta := timedelta_of_minutes 5.
Definition TIME_ZONE_DIFF : timedelta := timedelta_of_hours 2.
Definition earth_rad : float := 6378.137%float.
(** The literal [0.1] of the heading test in [get_stop_points]. *)
Definition MIN_TURN : float := 0.1%float.

(* ================================================================== *)
(** ** Data model *)

Module Point.
Record t : Set := make {
  timestamp : datetime;
  latitude : pyfloat;
  longitude : pyfloat
}.
End Point.

Module StopPoint.
Record t : Set := make {
  latitude : pyfloat;
  longitude : pyfloat;
  start_time : datetime;
  end_time : datetime
}.
End StopPoint.

(** The tuple [(point.latitude, point.longitude)]. *)
Definition latlng (p : Point.t) : position :=
  (Point.latitude p, Point.longitude p).

(* ================================================================== *)
(** ** Derived stop metrics *)

Definition get_elapsed_time (stop_point : StopPoint.t) : exc Z :=
  q <- int_truediv
         (seconds (StopPoint.end_time stop_point - StopPoint.start_time stop_point)) 60;;
  py_int (PrimFloat.add q 0.5%float).

Definition elapsed_time_to_str (elapsed_time : Z) : exc string :=
  if elapsed_time >=? 60 then
    q <- int_truediv elapsed_time 60;;
    h <- py_int q;;
    Ok (str_of_int h ++ "h " ++ str_of_int (elapsed_time mod 60) ++ "m")%string
  else
    Ok (str_of_int elapsed_time ++ "m")%string.

(** The filter of [_mark_stops]: a stop shorter than [MIN_STOP] is skipped. *)
Definition is_marked (stop_point : StopPoint.t) : bool :=
  negb (StopPoint.end_time stop_point - StopPoint.start_time stop_point <? MIN_STOP).

(** The rounding the specification names: [n / d] rounded to the nearest
    integer, halves upward, for a positive [d]. *)
Definition round_half_up (n d : Z) : Z := (2 * n + d) / (2 * d).

(** [round((end_time - start_time).total_seconds() / 60)], halves upward:
    the span in microseconds over the microseconds of a minute. *)
Definition elapsed_minutes_spec (stop_point : StopPoint.t) : Z :=
  round_half_up (StopPoint.end_time stop_point - StopPoint.start_time stop_point)
                (timedelta_of_minutes 1).

(* ================================================================== *)
(** ** Geometry primitives *)

Section Pipeline.
Context {M : PyMath}.

Definition _latlng_to_xyz (lat lng : float) : exc (float * float * float) :=
  let rlat := radians lat in
  let rlng := radians lng in
  coslat <- math_cos rlat;;
  c <- math_cos rlng;;
  s <- math_sin rlng;;
  z <- math_sin rlat;;
  Ok (PrimFloat.mul coslat c, PrimFloat.mul coslat s, z).

(** [sum(x * y for x, y in zip(xyz0, xyz1))]. *)
Definition dot (xyz0 xyz1 : float * float * float) : float :=
  let '(x0, y0, z0) := xyz0 in
  let '(x1, y1, z1) := xyz1 in
  builtin_sum [PrimFloat.mul x0 x1; PrimFloat.mul y0 y1; PrimFloat.mul z0 z1].

(** The [try ... except ValueError] around the [acos]: a [ValueError] is
    turned into [0.0], any other exception passes. *)
Definition except_ValueError (c : exc float) (handler : float) : exc float :=
  match c with
  | Raise ValueError => Ok handler
  | _ => c
  end.

Definition get_distance (pos0 pos1 : position) (radious : float) : exc float :=
  if tuple_eq pos0 pos1 then Ok 0%float
  else
    xyz0 <- _latlng_to_xyz (fval (fst pos0)) (fval (snd pos0));;
    xyz1 <- _latlng_to_xyz (fval (fst pos1)) (fval (snd pos1));;
    except_ValueError
      (a <- math_acos (dot xyz0 xyz1);; Ok (PrimFloat.mul a radious))
      0%float.

Definition get_speed (km : float) (second : Z) : exc float :=
  q <- float_div_int km second;;
  Ok (PrimFloat.mul q (float_of_Z 3600)).

Definition get_vector (pos0 pos1 : position) : float :=
  math_atan2 (PrimFloat.sub (fval (fst pos1)) (fval (fst pos0)))
             (PrimFloat.sub (fval (snd pos1)) (fval (snd pos0))).

Definition get_speed_from_points (point1 point2 : Point.t) : exc float :=
  km <- get_distance (latlng point1) (latlng point2) earth_rad;;
  let second := seconds (Point.timestamp point2 - Point.timestamp point1) in
  get_speed km second.

(* ================================================================== *)
(** ** Resampler: [AbstractPointStream.get_point] *)

(** The sample a [yield] of [get_point] builds from the buffer
    [self._points].  Both coordinates are new float objects; [fresh] and
    [fresh + 1] are their identities.  [self._points[0]] raises
    [IndexError] on an empty buffer. *)
Definition average (fresh : N) (points : list Point.t) : exc Point.t :=
  match points with
  | [] => Raise IndexError
  | p0 :: _ =>
      lat <- float_div_int (builtin_sum (map (fun p => fval (Point.latitude p)) points))
                           (Z.of_nat (List.length points));;
      lng <- float_div_int (builtin_sum (map (fun p => fval (Point.longitude p)) points))
                           (Z.of_nat (List.length points));;
      Ok (Point.make (Point.timestamp p0)
                     (PyFloat fresh lat) (PyFloat (fresh + 1) lng))
  end.

(** The generator, as the list of the samples it yields while it consumes
    [raw] (the samples of [self._get_point()]) from the buffer [points]. *)
Fixpoint get_point_from (points : list Point.t) (fresh : N) (raw : list Point.t)
  : exc (list Point.t) :=
  match raw with
  | [] =>
      match points with
      | [] => Ok []
      | _ :: _ => out <- average fresh points;; Ok [out]
      end
  | point :: raw' =>
      match points with
      | [] => get_point_from [point] fresh raw'
      | p0 :: _ =>
          if Point.timestamp point - Point.timestamp p0 <? POINT_INTERVAL_TIME then
            get_point_from (points ++ [point]) fresh raw'
          else
            out <- average fresh points;;
            rest <- get_point_from [point] (fresh + 2) raw';;
            Ok (out :: rest)
      end
  end.

(** An identity no float object of [raw] has. *)
Definition fresh_ident (raw : list Point.t) : N :=
  N.succ (fold_right N.max 0%N
            (flat_map (fun p => [ident (Point.latitude p); ident (Point.longitude p)]) raw)).

(** [get_point] on a new stream object: the buffer starts empty. *)
Definition get_point (raw : list Point.t) : exc (list Point.t) :=
  get_point_from [] (fresh_ident raw) raw.

(* ================================================================== *)
(** ** Track analyzer: [get_stop_points] *)

(** The local variables of [get_stop_points].  The open [StopPoint] is
    the only object the loop mutates, and only while [stop_point] refers to
    it: appending it to [stop_points] and clearing [stop_point] happen
    together, so no mutation is ever seen through the list, and the open
    stop is modelled as a value replaced on each extension. *)
Record analyzer : Set := Analyzer {
  stop_points : list StopPoint.t;
  stop_point : option StopPoint.t;
  prev_point : option Point.t;
  route : list position;
  prev_vector : float
}.

Definition analyzer_init : analyzer :=
  Analyzer [] None None [] 0%float.

(** One iteration of the [for] loop, with the two thresholds as
    parameters; the program fixes them to [MIN_SPEED] and [0.1]. *)
Definition analyzer_step (min_speed min_turn : float) (st : analyzer) (point : Point.t)
  : exc analyzer :=
  match prev_point st with
  | Some prev =>
      speed <- get_speed_from_points prev point;;
      let '(stops', stop') :=
        if PrimFloat.ltb speed min_speed then
          match stop_point st with
          | Some sp =>
              (stop_points st,
               Some (StopPoint.make (StopPoint.latitude sp) (StopPoint.longitude sp)
                       (StopPoint.start_time sp)
                       (Point.timestamp point + TIME_ZONE_DIFF)))
          | None =>
              (stop_points st,
               Some (StopPoint.make (Point.latitude point) (Point.longitude point)
                       (Point.timestamp point + TIME_ZONE_DIFF)
                       (Point.timestamp point + TIME_ZONE_DIFF)))
          end
        else
          match stop_point st with
          | Some sp => (stop_points st ++ [sp], None)
          | None => (stop_points st, None)
          end in
      let vector := get_vector (latlng prev) (latlng point) in
      let route' :=
        if PrimFloat.leb min_turn (PrimFloat.abs (PrimFloat.sub vector (prev_vector st)))
        then route st ++ [latlng point]
        else route st in
      Ok (Analyzer stops' stop' (Some point) route' vector)
  | None =>
      Ok (Analyzer (stop_points st) (stop_point st) (Some point)
                   (route st ++ [latlng point]) (prev_vector st))
  end.

Fixpoint analyzer_loop (min_speed min_turn : float) (st : analyzer) (points : list Point.t)
  : exc analyzer :=
  match points with
  | [] => Ok st
  | point :: rest =>
      st' <- analyzer_step min_speed min_turn st point;;
      analyzer_loop min_speed min_turn st' rest
  end.

Definition get_stop_points_loop : analyzer -> list Point.t -> exc analyzer :=
  analyzer_loop MIN_SPEED MIN_TURN.

(** The analyzer on the resampled samples: the loop from the initial
    locals, then [return stop_points, route]. *)
Definition analyze (resampled : list Point.t) : exc (list StopPoint.t * list position) :=
  st <- get_stop_points_loop analyzer_init resampled;;
  Ok (stop_points st, route st).

(** [get_stop_points(point_stream)], with [raw] the samples the stream's
    [_get_point] produces.  The program interleaves the generator and the
    loop; the generator has no effect the loop observes and never raises
    (see [get_point_from_buckets]), so running it first gives the same
    result. *)
Definition get_stop_points (raw : list Point.t) : exc (list StopPoint.t * list position) :=
  resampled <- get_point raw;;
  analyze resampled.

End Pipeline.

(* ================================================================== *)
(** ** A runnable instance of the runtime interface

    Truncated series for [sin] and [cos], the leading terms of [acos]
    near 1 and a rational [atan], with the exception behaviour of the
    [math] functions, and the left-to-right [sum].  The instance
    only serves to run the model on concrete tracks; no theorem below is
    specific to it. *)

Module Approx.

(** [acc] plus the next [n] terms of an alternating power series in [x2]
    whose last term [term] has degree [k]. *)
Fixpoint series (n : nat) (k : Z) (term x2 acc : float) : float :=
  match n with
  | O => acc
  | S n' =>
      let term' := (- term * x2 / float_of_Z ((k + 1) * (k + 2)))%float in
      series n' (k + 2) term' x2 (acc + term')%float
  end.

Definition sin (x : float) : exc float :=
  if PrimFloat.is_infinity x then Raise ValueError
  else Ok (series 12 1 x (x * x)%float x).

Definition cos (x : float) : exc float :=
  if PrimFloat.is_infinity x then Raise ValueError
  else Ok (series 12 0 1%float (x * x)%float 1%float).

Definition acos (y : float) : exc float :=
  if PrimFloat.ltb 1%float (PrimFloat.abs y) then Raise ValueError
  else
    let d := PrimFloat.sub 1%float y in
    Ok (PrimFloat.sqrt (2 * d) * (1 + d / 12))%float.

Definition atan (z : float) : float :=
  (z / (1 + 0.28 * z * z))%float.

Definition half_pi : float := PrimFloat.div math_pi 2%float.

Definition atan2 (y x : float) : float :=
  if PrimFloat.ltb (PrimFloat.abs y) (PrimFloat.abs x) then
    if PrimFloat.ltb 0%float x then atan (y / x)%float
    else if PrimFloat.ltb y 0%float then (atan (y / x) - math_pi)%float
    else (atan (y / x) + math_pi)%float
  else if PrimFloat.ltb 0%float y then (half_pi - atan (x / y))%float
  else if PrimFloat.ltb y 0%float then (- half_pi - atan (x / y))%float
  else 0%float.

Definition sum (xs : list float) : float :=
  fold_left PrimFloat.add xs 0%float.

End Approx.

#[export] Instance approx_math : PyMath := {
  math_sin := Approx.sin;
  math_cos := Approx.cos;
  math_acos := Approx.acos;
  math_atan2 := Approx.atan2;
  builtin_sum := Approx.sum
}.

(** The [k]-th sample of an example track, taken [s] seconds after the
    epoch at [lat], [lng]; its coordinates are the float objects [2k] and
    [2k + 1]. *)
Definition sample (k : N) (s : Z) (lat lng : float) : Point.t :=
  Point.make (timedelta_of_seconds s) (PyFloat (2 * k) lat) (PyFloat (2 * k + 1) lng).

(* ================================================================== *)
(** ** Vocabulary of the specification *)

(** A relation that holds between every two neighbours of a list. *)
Fixpoint adjacent {A : Type} (R : A -> A -> Prop) (l : list A) : Prop :=
  match l with
  | a :: (b :: _) as tl => R a b /\ adjacent R tl
  | _ => True
  end.

(** Timestamps that never decrease along the stream. *)
Definition non_decreasing (points : list Point.t) : Prop :=
  adjacent (fun a b => Point.timestamp a <= Point.timestamp b) points.

(** Neighbours at least one window width apart. *)
Definition window_separated (points : list Point.t) : Prop :=
  adjacent (fun a b => Point.timestamp a + POINT_INTERVAL_TIME <= Point.timestamp b) points.

(** A sample falls in the window opened at [anchor]. *)
Definition in_window (anchor : datetime) (p : Point.t) : Prop :=
  Point.timestamp p - anchor < POINT_INTERVAL_TIME.

(** A bucket: a first sample, whose timestamp is the anchor, and the
    samples buffered after it, all in the anchor's window. *)
Definition is_bucket (b : list Point.t) : Prop :=
  match b with
  | [] => False
  | p0 :: rest => Forall (in_window (Point.timestamp p0)) rest
  end.

(** The sample that opens the next bucket is outside the window of the
    bucket before it. *)
Definition closed_by (b next : list Point.t) : Prop :=
  match b, next with
  | p0 :: _, q :: _ => ~ in_window (Point.timestamp p0) q
  | _, _ => False
  end.

Section Specification.
Context {M : PyMath}.

(** The arithmetic mean of a non-empty list, in binary64. *)
Definition mean (xs : list float) : float :=
  PrimFloat.div (builtin_sum xs) (float_of_Z (Z.of_nat (List.length xs))).

(** [out] is the averaged sample of the bucket [b]. *)
Definition averages (b : list Point.t) (out : Point.t) : Prop :=
  match b with
  | [] => False
  | p0 :: _ =>
      Point.timestamp out = Point.timestamp p0 /\
      fval (Point.latitude out) = mean (map (fun p => fval (Point.latitude p)) b) /\
      fval (Point.longitude out) = mean (map (fun p => fval (Point.longitude p)) b)
  end.

(** Every speed computation between neighbours of the stream returns. *)
Definition speeds_return (points : list Point.t) : Prop :=
  adjacent (fun a b => exists speed : float, get_speed_from_points a b = Ok speed) points.

End Specification.

(** The coordinates of the samples are the float objects allocated one
    after the other from [fresh] on. *)
Fixpoint allocated_from (fresh : N) (points : list Point.t) : Prop :=
  match points with
  | [] => True
  | p :: rest =>
      ident (Point.latitude p) = fresh /\
      ident (Point.longitude p) = (fresh + 1)%N /\
      allocated_from (fresh + 2) rest
  end.

(** The invariant of the data model on a stop interval. *)
Definition well_formed (sp : StopPoint.t) : Prop :=
  StopPoint.start_time sp <= StopPoint.end_time sp.

(** What the loop maintains on an ordered stream: closed stops are well
    formed, and an open stop is well formed and ends no later than the
    previous sample (shifted by the display offset). *)
Definition stops_invariant (st : analyzer) : Prop :=
  Forall well_formed (stop_points st) /\
  forall sp : StopPoint.t,
    stop_point st = Some sp ->
    well_formed sp /\
    exists prev : Point.t,
      prev_point st = Some prev /\
      StopPoint.end_time sp <= Point.timestamp prev + TIME_ZONE_DIFF.

(** The samples still to come are ordered after the previous one. *)
Definition ordered_after (st : analyzer) (points : list Point.t) : Prop :=
  match prev_point st with
  | Some prev => non_decreasing (prev :: points)
  | None => non_decreasing points
  end.

(** The integers [from], [from + 1], ... , [n] of them. *)
Fixpoint range (n : nat) (from : Z) : list Z :=
  match n with
  | O => []
  | S n' => from :: range n' (from + 1)
  end.

(** The comparison checked over every value of [.seconds]:
    [int(s / 60 + 0.5)] on the floats against the integer quotient. *)
Definition minutes_check (s : Z) : bool :=
  match (q <- int_truediv s 60;; py_int (PrimFloat.add q 0.5%float)) with
  | Ok m => m =? (s + 30) / 60
  | Raise _ => false
  end.

(* ================================================================== *)
(** ** Sample data *)

(** A track that rests at one place overnight, with a gap in the
    recording, and leaves after 24 hours and 5 minutes; and the stop the
    analyzer returns for it. *)
Definition overnight_track : list Point.t :=
  [sample 0 0 35 139; sample 1 10 35 139; sample 2 86710 35 139;
   sample 3 86720 35.001 139].
Definition long_stop : StopPoint.t :=
  StopPoint.make (PyFloat 2 35) (PyFloat 3 139)
                 (timedelta_of_seconds 10 + TIME_ZONE_DIFF)
                 (timedelta_of_seconds 86710 + TIME_ZONE_DIFF).

(** A stop of 7 minutes and 30 seconds. *)
Definition short_stop : StopPoint.t :=
  StopPoint.make (PyFloat 0 35) (PyFloat 1 139) 0 (timedelta_of_seconds 450).

(** Two positions one unit in the last place apart in longitude. *)
Definition near0 : position := (PyFloat 0 10, PyFloat 1 30).
Definition near1 : position := (PyFloat 2 10, PyFloat 3 (PrimFloat.next_up 30)).

(** Two samples taken at the same instant and place. *)
Definition twin0 : Point.t := sample 0 0 35 139.
Definition twin1 : Point.t := sample 1 0 35 139.

(** Two samples at the same place, exactly one day apart. *)
Definition day0 : Point.t := sample 0 0 35 139.
Definition day1 : Point.t := sample 1 86400 35 139.

(** A raw track: three samples inside one window, then two in the next,
    with the timestamps going back once inside the first. *)
Definition raw_track : list Point.t :=
  [sample 0 0 35 139; sample 1 4 37 141; sample 2 3 36 140;
   sample 3 12 40 150; sample 4 21 42 152].

(** A track that rests at one place for three samples, leaves northwards
    and then turns east. *)
Definition rest1 : Point.t := sample 0 0 35 139.
Definition rest2 : Point.t := sample 1 10 35 139.
Definition rest3 : Point.t := sample 2 20 35 139.
Definition north4 : Point.t := sample 3 30 35.001 139.
Definition east5 : Point.t := sample 4 40 35.001 139.001.

(** A second sample due east of [rest1]. *)
Definition east2 : Point.t := sample 1 10 35 139.001.

(** The stop the analyzer opens on [rest2] and extends on [rest3]. *)
Definition rest_stop : StopPoint.t :=
  StopPoint.make (Point.latitude rest2) (Point.longitude rest2)
                 (Point.timestamp rest2 + TIME_ZONE_DIFF)
                 (Point.timestamp rest3 + TIME_ZONE_DIFF).

(** Further samples: staying at the last position, and a second sample
    due north of [rest1]. *)
Definition stay6 : Point.t := sample 5 50 35.001 139.001.
Definition stay7 : Point.t := sample 6 60 35.001 139.001.
Definition north2 : Point.t := sample 1 10 35.001 139.

Definition rest_track : list Point.t := [rest1; rest2; rest3; north4; east5].
Definition long_track : list Point.t := rest_track ++ [stay6; stay7].

(** The stop as opened on [rest2], before [rest3] extends it. *)
Definition opened_stop : StopPoint.t :=
  StopPoint.make (Point.latitude rest2) (Point.longitude rest2)
                 (Point.timestamp rest2 + TIME_ZONE_DIFF)
                 (Point.timestamp rest2 + TIME_ZONE_DIFF).

(** The stop opened on [stay6] and extended on [stay7]. *)
Definition stay_stop : StopPoint.t :=
  StopPoint.make (Point.latitude stay6) (Point.longitude stay6)
                 (Point.timestamp stay6 + TIME_ZONE_DIFF)
                 (Point.timestamp stay7 + TIME_ZONE_DIFF).

(** The locals of the analyzer after [rest1; rest2], after [rest1; rest2;
    rest3] and after [long_track]. *)
Definition opened_state : analyzer :=
  Analyzer [] (Some opened_stop) (Some rest2) [latlng rest1] 0%float.
Definition extended_state : analyzer :=
  Analyzer [] (Some rest_stop) (Some rest3) [latlng rest1] 0%float.
Definition long_state : analyzer :=
  Analyzer [rest_stop] (Some stay_stop) (Some stay7)
           [latlng rest1; latlng north4; latlng east5] 0%float.

(* ================================================================== *)
(** ** Further vocabulary *)

(** One day, as a span. *)
Definition one_day : timedelta := timedelta_of_hours 24.

(** The label [elapsed_time_to_str] builds, written with integer
    arithmetic. *)
Definition duration_label (minutes : Z) : string :=
  if minutes >=? 60 then
    (str_of_int (minutes / 60) ++ "h " ++ str_of_int (minutes mod 60) ++ "m")%string
  else (str_of_int minutes ++ "m")%string.

(** The comparison checked over every number of minutes
    [get_elapsed_time] can return: [int(e / 60)] on the floats against the
    integer quotient. *)
Definition hours_check (e : Z) : bool :=
  match (q <- int_truediv e 60;; py_int q) with
  | Ok h => h =? e / 60
  | Raise _ => false
  end.

(** The order of the non-NaN binary64 values, read off their
    decomposition: the rank of the class and sign, then exponent and
    mantissa (negated for the negative numbers), compared
    lexicographically. *)
Definition SFkey (f : spec_float) : Z * Z * Z :=
  match f with
  | S754_nan => (0, 0, 0)
  | S754_infinity true => (-2, 0, 0)
  | S754_infinity false => (2, 0, 0)
  | S754_zero _ => (0, 0, 0)
  | S754_finite true m e => (-1, - e, Z.neg m)
  | S754_finite false m e => (1, e, Z.pos m)
  end.

Definition key_compare (a b : Z * Z * Z) : comparison :=
  let '(r1, e1, m1) := a in
  let '(r2, e2, m2) := b in
  match r1 ?= r2 with
  | Eq => match e1 ?= e2 with
          | Eq => m1 ?= m2
          | c => c
          end
  | c => c
  end.

Definition key_le (a b : Z * Z * Z) : Prop := key_compare a b <> Gt.

(** A bucket whose samples all lie in [[anchor, anchor + 10 s)]. *)
Definition is_window_bucket (b : list Point.t) : Prop :=
  match b with
  | [] => False
  | p0 :: rest =>
      Forall (fun p => Point.timestamp p0 <= Point.timestamp p
                       < Point.timestamp p0 + POINT_INTERVAL_TIME) rest
  end.

(** An ordered raw stream: three samples in one window, two in the next. *)
Definition dense_track : list Point.t :=
  [sample 0 0 35 139; sample 1 3 36 140; sample 2 4 37 141;
   sample 3 12 40 150; sample 4 21 42 152].

(** A raw stream whose neighbours are all a window apart, as a track. *)
Definition sparse_track : list Point.t :=
  [sample 0 0 35 139; sample 1 10 36 140; sample 2 25 37 141].

(** [l1] is [l2] with some of its elements left out. *)
Inductive subsequence {A : Type} : list A -> list A -> Prop :=
| subsequence_nil : subsequence [] []
| subsequence_skip (x : A) (l1 l2 : list A) :
    subsequence l1 l2 -> subsequence l1 (x :: l2)
| subsequence_keep (x : A) (l1 l2 : list A) :
    subsequence l1 l2 -> subsequence (x :: l1) (x :: l2).

Section MoreSpecification.
Context {M : PyMath}.

(** Every step between neighbours of the stream is classified as stopped
    (its speed is computed and is below [MIN_SPEED]), respectively as
    moving. *)
Definition always_stopped (points : list Point.t) : Prop :=
  adjacent (fun a b => exists speed : float,
                get_speed_from_points a b = Ok speed /\
                PrimFloat.ltb speed MIN_SPEED = true) points.

Definition always_moving (points : list Point.t) : Prop :=
  adjacent (fun a b => exists speed : float,
                get_speed_from_points a b = Ok speed /\
                PrimFloat.ltb speed MIN_SPEED = false) points.

End MoreSpecification.

(** A stop sits on a sample of the stream: at its position, started at
    its timestamp and ended at the timestamp of a sample of the stream
    (both shifted by the display offset). *)
Definition stop_on_samples (points : list Point.t) (sp : StopPoint.t) : Prop :=
  exists p q : Point.t,
    In p points /\ In q points /\
    StopPoint.latitude sp = Point.latitude p /\
    StopPoint.longitude sp = Point.longitude p /\
    StopPoint.start_time sp = Point.timestamp p + TIME_ZONE_DIFF /\
    StopPoint.end_time sp = Point.timestamp q + TIME_ZONE_DIFF.

(** What the loop maintains on a stream whose neighbours are at least [w]
    apart: the closed stops are pairwise [2 w] apart and end [w] before the
    previous sample, and an open stop starts [2 w] after every closed one
    and ends no later than the previous sample. *)
Definition gap_invariant (w : timedelta) (st : analyzer) : Prop :=
  match prev_point st with
  | None => stop_points st = [] /\ stop_point st = None
  | Some prev =>
      ForallOrdPairs
        (fun a b => StopPoint.end_time a + 2 * w <= StopPoint.start_time b)
        (stop_points st) /\
      Forall (fun c => StopPoint.end_time c + w <= Point.timestamp prev + TIME_ZONE_DIFF)
             (stop_points st) /\
      forall sp : StopPoint.t,
        stop_point st = Some sp ->
        Forall (fun c => StopPoint.end_time c + 2 * w <= StopPoint.start_time sp)
               (stop_points st) /\
        StopPoint.end_time sp <= Point.timestamp prev + TIME_ZONE_DIFF
  end.

(** What the loop maintains about where the stops come from, [seen] being
    the samples consumed so far. *)
Definition origin_invariant (seen : list Point.t) (st : analyzer) : Prop :=
  Forall (stop_on_samples seen) (stop_points st) /\
  forall sp : StopPoint.t, stop_point st = Some sp -> stop_on_samples seen sp.

(** A track going north in a straight line, and a track that never moves. *)
Definition straight_track : list Point.t :=
  [sample 0 0 35 139; sample 1 10 35.001 139; sample 2 20 35.002 139].
Definition parked_track : list Point.t :=
  [rest1; rest2; rest3; sample 3 30 35 139].

(** [long_track] followed by a sample that moves on: two stops are
    closed. *)
Definition two_stop_track : list Point.t :=
  long_track ++ [sample 7 70 35.002 139.001].

(** A track that keeps moving. *)
Definition moving_track : list Point.t := [rest3; north4; east5].

(* ================================================================== *)
(** ** Presentation: bounds, markers and the map *)

(** The builtin [min] over a non-empty list of floats: the first of the
    smallest elements, found with [item < smallest]; [ValueError] on an
    empty list.  The result is one of the objects of the list. *)
Definition py_min (xs : list pyfloat) : exc pyfloat :=
  match xs with
  | [] => Raise ValueError
  | x :: rest =>
      Ok (fold_left (fun smallest item =>
                       if PrimFloat.ltb (fval item) (fval smallest) then item else smallest)
                    rest x)
  end.

(** The builtin [max]: [item > largest]. *)
Definition py_max (xs : list pyfloat) : exc pyfloat :=
  match xs with
  | [] => Raise ValueError
  | x :: rest =>
      Ok (fold_left (fun largest item =>
                       if PrimFloat.ltb (fval largest) (fval item) then item else largest)
                    rest x)
  end.


Definition get_bounds_of_route (route : list position) : exc (position * position) :=
  let lats := map fst route in
  let longs := map snd route in
  lat0 <- py_min lats;;
  lng0 <- py_min longs;;
  lat1 <- py_max lats;;
  lng1 <- py_max longs;;
  Ok ((lat0, lng0), (lat1, lng1)).

(** The two renderings of the Python runtime that [_mark_stops] uses and
    the model leaves open: [datetime.strftime] with the format
    ["%d/%H:%M"] and [str] of a float. *)
Class PyFormat : Type := {
  strftime_day_time : datetime -> string;
  str_of_float : float -> string
}.

(** What the program adds to the [folium] map, which is modelled as the
    list of these children in the order they are added. *)
Inductive child : Type :=
| FitBounds (bounds : position * position)
| PolyLine (locations : list position) (color : string)
| Marker (location : position) (popup : string) (show : bool)
| CircleMarker (location : position) (color : string) (radius : float).

(** The characters an f-string of [_mark_stops] holds that a string
    literal here cannot: the double quote and the line feed. *)
Definition dquote : string := String (ascii_of_nat 34) EmptyString.
Definition newline : string := String (ascii_of_nat 10) EmptyString.

Section Presentation.
Context {F : PyFormat}.

Definition googlemap_link (stop_point : StopPoint.t) : string :=
  let googlemap :=
    ("https://maps.google.co.jp/maps?q="
       ++ str_of_float (fval (StopPoint.latitude stop_point)) ++ ","
       ++ str_of_float (fval (StopPoint.longitude stop_point)))%string in
  ("<a href=" ++ dquote ++ googlemap ++ dquote
     ++ " target=" ++ dquote ++ "_blank" ++ dquote
     ++ " rel=" ++ dquote ++ "noopener noreferrer" ++ dquote
     ++ ">googlemap</a>")%string.

Definition popup_text (stop_point : StopPoint.t) (s_elapsed_time : string) : string :=
  (strftime_day_time (StopPoint.start_time stop_point) ++ "-"
     ++ strftime_day_time (StopPoint.end_time stop_point) ++ newline
     ++ s_elapsed_time ++ " " ++ googlemap_link stop_point)%string.


(** [_mark_stops]: the loop over the stops, threading the children of the
    map. *)
Fixpoint _mark_stops (map : list child) (stop_points : list StopPoint.t)
  : exc (list child) :=
  match stop_points with
  | [] => Ok map
  | stop_point :: rest =>
      if StopPoint.end_time stop_point - StopPoint.start_time stop_point <? MIN_STOP then
        _mark_stops map rest
      else
        elapsed_time <- get_elapsed_time stop_point;;
        s_elapsed_time <- elapsed_time_to_str elapsed_time;;
        let location := (StopPoint.latitude stop_point, StopPoint.longitude stop_point) in
        let marker := Marker location (popup_text stop_point s_elapsed_time) false in
        radius <- int_truediv elapsed_time 4;;
        _mark_stops (map ++ [marker; CircleMarker location "#00aa00" radius]) rest
  end.


End Presentation.

Section Program.
Context {M : PyMath} {F : PyFormat}.



End Program.

(** A rendering for the examples: the seconds since the epoch, and the
    float truncated to an integer. *)
#[export] Instance plain_format : PyFormat := {
  strftime_day_time := fun t => str_of_int (t / 1000000);
  str_of_float := fun x => match py_int x with Ok n => str_of_int n | Raise _ => "nan"%string end
}.

(** No coordinate of the route is NaN. *)
Definition route_without_nan (route : list position) : Prop :=
  Forall (fun p => PrimFloat.is_nan (fval (fst p)) = false /\
                   PrimFloat.is_nan (fval (snd p)) = false) route.

(** A position lies in the box spanned by two corners. *)
Definition in_box (bounds : position * position) (p : position) : Prop :=
  let '((lat0, lng0), (lat1, lng1)) := bounds in
  PrimFloat.leb (fval lat0) (fval (fst p)) = true /\
  PrimFloat.leb (fval (fst p)) (fval lat1) = true /\
  PrimFloat.leb (fval lng0) (fval (snd p)) = true /\
  PrimFloat.leb (fval (snd p)) (fval lng1) = true.

(** A route through a NaN coordinate, and a short and a marked stop. *)
Definition nan_route : list position :=
  [(PyFloat 0 PrimFloat.nan, PyFloat 1 139); (PyFloat 2 35, PyFloat 3 140)].
Definition brief_stop : StopPoint.t :=
  StopPoint.make (PyFloat 0 35) (PyFloat 1 139) 0 (timedelta_of_seconds 299).

(* ================================================================== *)
(** * Properties *)

(** ** The error monad *)

Lemma bind_Ok_inv {A B : Type} (c : exc A) (k : A -> exc B) (b : B) :
  bind c k = Ok b -> exists a, c = Ok a /\ k a = Ok b.
Proof.
  destruct c as [a|e]; simpl; intro H; [eauto | discriminate].
Qed.

Ltac inv_bind H :=
  let a := fresh "a" in
  let Ha := fresh "H" a in
  apply bind_Ok_inv in H; destruct H as [a [Ha H]].

(** ** Derived stop metrics *)

Lemma seconds_range (d : timedelta) : 0 <= seconds d < 86400.
Proof. unfold seconds. apply Z.mod_pos_bound. lia. Qed.

(** [int(s / 60 + 0.5)] on the floats agrees with the integer quotient
    for every value the [.seconds] attribute can take. *)
Lemma minutes_check_all :
  forallb (fun m => forallb (fun r => minutes_check (60 * m + r)) (range 60 0))
          (range 1440 0) = true.
Proof. vm_compute. reflexivity. Qed.

Lemma in_range (n : nat) : forall from s : Z,
  from <= s < from + Z.of_nat n -> In s (range n from).
Proof.
  induction n as [|n IH]; intros from s Hs; [lia|].
  cbn [range]. destruct (Z.eq_dec from s) as [->|Hne]; [now left|].
  right. apply IH. lia.
Qed.

Lemma minutes_float_exact (s : Z) :
  0 <= s < 86400 ->
  (q <- int_truediv s 60;; py_int (PrimFloat.add q 0.5%float)) = Ok ((s + 30) / 60).
Proof.
  intro Hs.
  pose proof minutes_check_all as Hall.
  rewrite forallb_forall in Hall.
  pose proof (Z.div_mod s 60 ltac:(lia)) as Hdm.
  pose proof (Z.mod_pos_bound s 60 ltac:(lia)) as Hr.
  assert (Hm : 0 <= s / 60 < 1440).
  { split; [apply Z.div_pos; lia | apply Z.div_lt_upper_bound; lia]. }
  assert (Hin1 : In (s / 60) (range 1440 0))
    by (apply in_range; change (Z.of_nat 1440) with 1440; lia).
  assert (Hin2 : In (s mod 60) (range 60 0))
    by (apply in_range; change (Z.of_nat 60) with 60; lia).
  specialize (Hall (s / 60) Hin1).
  rewrite forallb_forall in Hall.
  specialize (Hall (s mod 60) Hin2).
  rewrite <- Hdm in Hall.
  unfold minutes_check in Hall.
  destruct (q <- int_truediv s 60;; py_int (PrimFloat.add q 0.5%float)) as [m|e];
    [| discriminate].
  apply Z.eqb_eq in Hall. now subst.
Qed.

(** What [get_elapsed_time] computes, for every stop: the minutes of the
    [.seconds] part of the span, halves upward.  It never raises. *)
Lemma get_elapsed_time_eq (sp : StopPoint.t) :
  get_elapsed_time sp =
  Ok ((seconds (StopPoint.end_time sp - StopPoint.start_time sp) + 30) / 60).
Proof.
  unfold get_elapsed_time. apply minutes_float_exact, seconds_range.
Qed.

Lemma round_half_up_minutes (d : timedelta) :
  0 <= d ->
  round_half_up d (timedelta_of_minutes 1) = (d / 1000000 + 30) / 60.
Proof.
  intro Hd. unfold round_half_up, timedelta_of_minutes, timedelta_of_seconds.
  replace (d / 1000000 + 30) with ((d + 30 * 1000000) / 1000000)
    by (rewrite Z.div_add by lia; reflexivity).
  rewrite Z.div_div by lia.
  replace (2 * d + 1 * 60 * 1000000) with ((d + 30 * 1000000) * 2) by lia.
  replace (2 * (1 * 60 * 1000000)) with (1000000 * 60 * 2) by lia.
  rewrite Z.div_mul_cancel_r by lia. reflexivity.
Qed.

(** Below one day the code and the specification agree. *)
Lemma get_elapsed_time_within_a_day (sp : StopPoint.t) :
  StopPoint.start_time sp <= StopPoint.end_time sp ->
  StopPoint.end_time sp - StopPoint.start_time sp < timedelta_of_hours 24 ->
  get_elapsed_time sp = Ok (elapsed_minutes_spec sp).
Proof.
  intros Hle Hday. rewrite get_elapsed_time_eq. f_equal.
  unfold elapsed_minutes_spec. rewrite round_half_up_minutes by lia.
  unfold seconds, timedelta_of_hours, timedelta_of_seconds in *.
  rewrite Z.mod_small; [reflexivity|].
  split; [apply Z.div_pos; lia|].
  apply Z.div_lt_upper_bound; lia.
Qed.

(** C3, at a stop of 24 h 05 min that the analyzer returns for a track:
    [end_time >= start_time], the stop passes the [MIN_STOP] filter of
    [_mark_stops], the specification's rounding of the span gives 1445
    minutes, and [get_elapsed_time] returns 5: the [.seconds] attribute
    leaves the day out. *)
Theorem get_elapsed_time_drops_days :
  analyze overnight_track =
    Ok ([long_stop], [latlng (sample 0 0 35 139); latlng (sample 3 86720 35.001 139)]) /\
  StopPoint.start_time long_stop <= StopPoint.end_time long_stop /\
  StopPoint.end_time long_stop - StopPoint.start_time long_stop =
    timedelta_of_hours 24 + timedelta_of_minutes 5 /\
  is_marked long_stop = true /\
  elapsed_minutes_spec long_stop = 1445 /\
  get_elapsed_time long_stop = Ok 5.
Proof.
  split; [vm_compute; reflexivity|].
  split; [vm_compute; discriminate|].
  split; [reflexivity|].
  split; [reflexivity|].
  split; [reflexivity|].
  rewrite get_elapsed_time_eq. reflexivity.
Qed.

Example get_elapsed_time_short_stop :
  get_elapsed_time short_stop = Ok 8 /\ elapsed_minutes_spec short_stop = 8.
Proof.
  split; [rewrite get_elapsed_time_eq|]; reflexivity.
Qed.

Example elapsed_time_to_str_75 : elapsed_time_to_str 75 = Ok "1h 15m"%string.
Proof. vm_compute. reflexivity. Qed.

Example elapsed_time_to_str_45 : elapsed_time_to_str 45 = Ok "45m"%string.
Proof. vm_compute. reflexivity. Qed.

(** ** Geometry primitives *)

Lemma is_or_eq_refl (a : pyfloat) : is_or_eq a a = true.
Proof. unfold is_or_eq. now rewrite N.eqb_refl. Qed.

Lemma tuple_eq_refl (p : position) : tuple_eq p p = true.
Proof. unfold tuple_eq. now rewrite !is_or_eq_refl. Qed.

Section Geometry.
Context {M : PyMath}.

Lemma get_distance_same (pos0 pos1 : position) (radious : float) :
  tuple_eq pos0 pos1 = true -> get_distance pos0 pos1 radious = Ok 0%float.
Proof. intro H. unfold get_distance. now rewrite H. Qed.

(** C4: [get_distance(p, p)] is [0.0] for every position [p], NaN
    coordinates included; whenever [acos] raises [ValueError] on the
    computed dot product, [get_distance] returns [0.0] instead of raising;
    in particular, with an [acos] that raises [ValueError] outside
    [[-1, 1]], it returns [0.0] whenever the dot product lies outside. *)
Theorem get_distance_degenerate :
  (forall (p : position) (radious : float), get_distance p p radious = Ok 0%float) /\
  (forall (pos0 pos1 : position) (radious : float) (xyz0 xyz1 : float * float * float),
      _latlng_to_xyz (fval (fst pos0)) (fval (snd pos0)) = Ok xyz0 ->
      _latlng_to_xyz (fval (fst pos1)) (fval (snd pos1)) = Ok xyz1 ->
      math_acos (dot xyz0 xyz1) = Raise ValueError ->
      get_distance pos0 pos1 radious = Ok 0%float) /\
  ((forall x : float,
       PrimFloat.ltb 1%float (PrimFloat.abs x) = true -> math_acos x = Raise ValueError) ->
   forall (pos0 pos1 : position) (radious : float) (xyz0 xyz1 : float * float * float),
     _latlng_to_xyz (fval (fst pos0)) (fval (snd pos0)) = Ok xyz0 ->
     _latlng_to_xyz (fval (fst pos1)) (fval (snd pos1)) = Ok xyz1 ->
     PrimFloat.ltb 1%float (PrimFloat.abs (dot xyz0 xyz1)) = true ->
     get_distance pos0 pos1 radious = Ok 0%float).
Proof.
  assert (Hcaught :
            forall (pos0 pos1 : position) (radious : float) (xyz0 xyz1 : float * float * float),
              _latlng_to_xyz (fval (fst pos0)) (fval (snd pos0)) = Ok xyz0 ->
              _latlng_to_xyz (fval (fst pos1)) (fval (snd pos1)) = Ok xyz1 ->
              math_acos (dot xyz0 xyz1) = Raise ValueError ->
              get_distance pos0 pos1 radious = Ok 0%float).
  { intros pos0 pos1 radious xyz0 xyz1 H0 H1 Hacos.
    unfold get_distance. destruct (tuple_eq pos0 pos1); [reflexivity|].
    rewrite H0, H1. cbn [bind]. rewrite Hacos. reflexivity. }
  split; [|split].
  - intros p radious. apply get_distance_same, tuple_eq_refl.
  - exact Hcaught.
  - intros Hdomain pos0 pos1 radious xyz0 xyz1 H0 H1 Hout.
    apply (Hcaught pos0 pos1 radious xyz0 xyz1 H0 H1). apply Hdomain, Hout.
Qed.

(** The speed computation has one division and no test before it. *)
Lemma get_speed_zero_seconds (km : float) : get_speed km 0 = Raise ZeroDivisionError.
Proof. reflexivity. Qed.

Lemma get_speed_nonzero_seconds (km : float) (second : Z) :
  second <> 0 ->
  get_speed km second =
  Ok (PrimFloat.mul (PrimFloat.div km (float_of_Z second)) (float_of_Z 3600)).
Proof.
  intro H. unfold get_speed, float_div_int.
  destruct (Z.eqb_spec second 0); [contradiction | reflexivity].
Qed.

Lemma get_speed_from_points_zero_seconds (point1 point2 : Point.t) (km : float) :
  seconds (Point.timestamp point2 - Point.timestamp point1) = 0 ->
  get_distance (latlng point1) (latlng point2) earth_rad = Ok km ->
  get_speed_from_points point1 point2 = Raise ZeroDivisionError.
Proof.
  intros Hs Hkm. unfold get_speed_from_points. rewrite Hkm. simpl.
  rewrite Hs. reflexivity.
Qed.

Lemma get_speed_from_points_nonzero_seconds (point1 point2 : Point.t) (km : float) :
  seconds (Point.timestamp point2 - Point.timestamp point1) <> 0 ->
  get_distance (latlng point1) (latlng point2) earth_rad = Ok km ->
  get_speed_from_points point1 point2 =
  Ok (PrimFloat.mul
        (PrimFloat.div km
           (float_of_Z (seconds (Point.timestamp point2 - Point.timestamp point1))))
        (float_of_Z 3600)).
Proof.
  intros Hs Hkm. unfold get_speed_from_points. rewrite Hkm. cbn [bind].
  apply get_speed_nonzero_seconds, Hs.
Qed.

Lemma analyzer_step_propagates (min_speed min_turn : float) (st : analyzer)
      (prev point : Point.t) (e : exn) :
  prev_point st = Some prev ->
  get_speed_from_points prev point = Raise e ->
  analyzer_step min_speed min_turn st point = Raise e.
Proof.
  intros Hprev Hspeed. unfold analyzer_step. rewrite Hprev, Hspeed. reflexivity.
Qed.

(** C2, as the code has it: for two consecutive samples with identical
    timestamps whose distance is computed, [get_speed] divides by zero:
    [get_speed_from_points] raises [ZeroDivisionError], the loop of
    [get_stop_points] does not catch it, and the analysis ends with that
    exception whatever samples follow. *)
Theorem speed_identical_timestamps_raises (point1 point2 : Point.t) (km : float) :
  Point.timestamp point1 = Point.timestamp point2 ->
  get_distance (latlng point1) (latlng point2) earth_rad = Ok km ->
  get_speed_from_points point1 point2 = Raise ZeroDivisionError /\
  forall (st : analyzer) (rest : list Point.t),
    prev_point st = Some point1 ->
    get_stop_points_loop st (point2 :: rest) = Raise ZeroDivisionError.
Proof.
  intros Ht Hkm.
  assert (Hspeed : get_speed_from_points point1 point2 = Raise ZeroDivisionError).
  { apply get_speed_from_points_zero_seconds with (km := km); [|assumption].
    rewrite Ht, Z.sub_diag. reflexivity. }
  split; [assumption|].
  intros st rest Hprev. unfold get_stop_points_loop. simpl.
  rewrite (analyzer_step_propagates _ _ _ _ _ _ Hprev Hspeed). reflexivity.
Qed.

End Geometry.

Lemma get_distance_degenerate_witness :
  get_distance near0 near0 earth_rad = Ok 0%float /\
  tuple_eq near0 near1 = false /\
  get_distance near0 near1 earth_rad = Ok 0%float.
Proof.
  split; [apply (proj1 get_distance_degenerate)|].
  split; [reflexivity|].
  eapply (proj2 (proj2 get_distance_degenerate)) with (pos0 := near0) (pos1 := near1).
  - intros x Hx. unfold math_acos, approx_math, Approx.acos. now rewrite Hx.
  - reflexivity.
  - reflexivity.
  - reflexivity.
Defined.

(** C2 as stated fails: two samples with identical timestamps make the
    speed computation, and with it the analyzer, raise [ZeroDivisionError]. *)
Lemma identical_timestamps_crash :
  Point.timestamp twin0 = Point.timestamp twin1 /\
  get_speed_from_points twin0 twin1 = Raise ZeroDivisionError /\
  analyze [twin0; twin1] = Raise ZeroDivisionError.
Proof. repeat split. Qed.

Lemma speed_identical_timestamps_raises_witness :
  get_speed_from_points twin0 twin1 = Raise ZeroDivisionError /\
  forall (st : analyzer) (rest : list Point.t),
    prev_point st = Some twin0 ->
    get_stop_points_loop st (twin1 :: rest) = Raise ZeroDivisionError.
Proof.
  apply (speed_identical_timestamps_raises twin0 twin1 0%float); reflexivity.
Defined.

(** The same division by zero is reached through the resampler: its
    samples are at least a window apart, but [.seconds] is also zero for a
    gap of whole days. *)
Example get_stop_points_one_day_gap :
  get_point [day0; day1] = Ok [sample 2 0 35 139; sample 3 86400 35 139] /\
  get_stop_points [day0; day1] = Raise ZeroDivisionError.
Proof. split; vm_compute; reflexivity. Qed.

(** ** Resampler *)

Lemma adjacent_cons {A : Type} (R : A -> A -> Prop) (a b : A) (l : list A) :
  adjacent R (a :: b :: l) <-> R a b /\ adjacent R (b :: l).
Proof. reflexivity. Qed.

Lemma adjacent_app_l {A : Type} (R : A -> A -> Prop) (l1 l2 : list A) :
  adjacent R (l1 ++ l2) -> adjacent R l1.
Proof.
  induction l1 as [|a [|b l1] IH]; simpl; intros H; auto.
  destruct H as [Hab H]. split; [assumption|]. apply IH. exact H.
Qed.

Section Resampler.
Context {M : PyMath}.

(** On a non-empty buffer the yield raises nothing and builds the bucket's
    average. *)
Lemma average_bucket (fresh : N) (p0 : Point.t) (rest : list Point.t) :
  exists out, average fresh (p0 :: rest) = Ok out /\ averages (p0 :: rest) out.
Proof.
  unfold average, float_div_int.
  destruct (Z.eqb_spec (Z.of_nat (List.length (p0 :: rest))) 0) as [H|_].
  - simpl in H. lia.
  - cbn [bind]. eexists. split; [reflexivity|].
    unfold averages, mean. rewrite !length_map. simpl. auto.
Qed.

(** The generator from a buffer that is a bucket: what it yields are the
    averages of a partition of the buffered and the remaining samples into
    buckets, the first of which continues the buffer. *)
Lemma get_point_from_buckets (raw : list Point.t) :
  forall (b : list Point.t) (fresh : N),
    is_bucket b ->
    exists (extra : list Point.t) (bs : list (list Point.t)) (outs : list Point.t),
      get_point_from b fresh raw = Ok outs /\
      List.concat ((b ++ extra) :: bs) = b ++ raw /\
      Forall is_bucket ((b ++ extra) :: bs) /\
      adjacent closed_by ((b ++ extra) :: bs) /\
      Forall2 averages ((b ++ extra) :: bs) outs.
Proof.
  induction raw as [|point raw IH]; intros b fresh Hb.
  - destruct b as [|p0 rest]; [contradiction|].
    destruct (average_bucket fresh p0 rest) as [out [Hout Havg]].
    exists [], [], [out]. cbn [get_point_from]. rewrite Hout. simpl.
    rewrite !app_nil_r. repeat split; auto.
  - destruct b as [|p0 rest]; [contradiction|].
    cbn [get_point_from].
    destruct (Z.ltb_spec (Point.timestamp point - Point.timestamp p0) POINT_INTERVAL_TIME)
      as [Hin|Hout].
    + destruct (IH ((p0 :: rest) ++ [point]) fresh) as (extra & bs & outs & Hrun & Hcat & Hbs & Hadj & Havg).
      { simpl. simpl in Hb. apply Forall_app. split; [assumption|].
        constructor; [exact Hin | constructor]. }
      exists (point :: extra), bs, outs.
      replace ((p0 :: rest) ++ point :: extra) with (((p0 :: rest) ++ [point]) ++ extra)
        by (rewrite <- app_assoc; reflexivity).
      replace ((p0 :: rest) ++ point :: raw) with (((p0 :: rest) ++ [point]) ++ raw)
        by (rewrite <- app_assoc; reflexivity).
      auto.
    + destruct (average_bucket fresh p0 rest) as [out [Hout' Havg0]].
      rewrite Hout'. cbn [bind].
      destruct (IH [point] (fresh + 2)%N) as (extra & bs & outs & Hrun & Hcat & Hbs & Hadj & Havg).
      { simpl. constructor. }
      rewrite Hrun. cbn [bind].
      exists [], (([point] ++ extra) :: bs), (out :: outs).
      rewrite app_nil_r.
      split; [reflexivity|].
      split; [change (List.concat ((p0 :: rest) :: ([point] ++ extra) :: bs))
                with ((p0 :: rest) ++ List.concat (([point] ++ extra) :: bs));
              rewrite Hcat; reflexivity|].
      split; [constructor; assumption|].
      split; [|constructor; assumption].
      apply adjacent_cons. split; [|assumption].
      simpl. unfold in_window. lia.
Qed.

(** C5: for every raw stream, [get_point] returns, and the samples it
    yields are, in order, the averages of the buckets of the stream: the
    buckets partition the raw samples in order, each bucket is the samples
    buffered from an anchor up to the first sample outside the anchor's
    window (or up to the end of the input, for the last bucket, which is
    flushed like the others), and the sample yielded for a bucket carries
    the anchor as timestamp and the means of the bucket's latitudes and
    longitudes. *)
Theorem get_point_averages_buckets (raw : list Point.t) :
  exists (bs : list (list Point.t)) (outs : list Point.t),
    get_point raw = Ok outs /\
    List.concat bs = raw /\
    Forall is_bucket bs /\
    adjacent closed_by bs /\
    Forall2 averages bs outs.
Proof.
  unfold get_point. destruct raw as [|point raw].
  - exists [], []. simpl. repeat split; constructor.
  - cbn [get_point_from].
    destruct (get_point_from_buckets raw [point] (fresh_ident (point :: raw)))
      as (extra & bs & outs & Hrun & Hcat & Hbs & Hadj & Havg).
    { simpl. constructor. }
    exists (([point] ++ extra) :: bs), outs. auto.
Qed.

(** Every yielded coordinate is a new object: none is shared between two
    resampled samples or with a raw one. *)
Lemma get_point_from_allocates (raw : list Point.t) :
  forall (b : list Point.t) (fresh : N) (outs : list Point.t),
    get_point_from b fresh raw = Ok outs -> allocated_from fresh outs.
Proof.
  assert (Havg : forall fresh points out,
             average fresh points = Ok out ->
             ident (Point.latitude out) = fresh /\
             ident (Point.longitude out) = (fresh + 1)%N).
  { intros fresh points out H. unfold average in H.
    destruct points as [|p0 rest]; [discriminate|].
    inv_bind H. inv_bind H. injection H as <-. split; reflexivity. }
  induction raw as [|point raw IH]; intros b fresh outs H; cbn [get_point_from] in H.
  - destruct b as [|p0 rest]; [injection H as <-; exact I|].
    inv_bind H. injection H as <-.
    destruct (Havg _ _ _ Ha) as [Hlat Hlng]. cbn [allocated_from]. auto.
  - destruct b as [|p0 rest]; [apply (IH _ _ _ H)|].
    destruct (Point.timestamp point - Point.timestamp p0 <? POINT_INTERVAL_TIME);
      [apply (IH _ _ _ H)|].
    inv_bind H. inv_bind H. injection H as <-.
    destruct (Havg _ _ _ Ha) as [Hlat Hlng]. cbn [allocated_from].
    split; [assumption|]. split; [assumption|]. apply (IH _ _ _ Ha0).
Qed.

Lemma averages_separated (bs : list (list Point.t)) (outs : list Point.t) :
  Forall2 averages bs outs -> adjacent closed_by bs -> window_separated outs.
Proof.
  unfold window_separated.
  induction 1 as [|b out bs outs Hb Hrest IH]; intros Hadj; [exact I|].
  destruct Hrest as [|b2 out2 bs2 outs2 Hb2 Hrest2]; [exact I|].
  apply adjacent_cons in Hadj. destruct Hadj as [Hclosed Hadj].
  apply adjacent_cons. split; [|apply IH; assumption].
  destruct b as [|p0 rest]; [contradiction|].
  destruct b2 as [|q rest2]; [contradiction|].
  simpl in Hb, Hb2, Hclosed. unfold in_window in Hclosed.
  destruct Hb as [Ht _]. destruct Hb2 as [Ht2 _]. lia.
Qed.

Lemma window_separated_non_decreasing (points : list Point.t) :
  window_separated points -> non_decreasing points.
Proof.
  unfold window_separated, non_decreasing.
  induction points as [|a [|b l] IH]; simpl; auto.
  intros [Hab H]. split; [|apply IH; exact H].
  unfold POINT_INTERVAL_TIME, timedelta_of_seconds in Hab. lia.
Qed.

Lemma non_decreasing_app_r (l1 l2 : list Point.t) :
  non_decreasing (l1 ++ l2) -> non_decreasing l2.
Proof.
  unfold non_decreasing. induction l1 as [|a l1 IH]; [auto|].
  intro H. apply IH. destruct l1 as [|b l1]; simpl in *.
  - destruct l2; [exact I | apply H].
  - apply H.
Qed.

Lemma non_decreasing_head (p0 : Point.t) (rest : list Point.t) :
  non_decreasing (p0 :: rest) ->
  Forall (fun p => Point.timestamp p0 <= Point.timestamp p) rest.
Proof.
  unfold non_decreasing. revert p0.
  induction rest as [|q rest IH]; intros p0 H; [constructor|].
  destruct H as [Hle H]. constructor; [assumption|].
  apply IH in H. eapply Forall_impl; [|exact H].
  intros p Hp. cbn beta in Hp. lia.
Qed.

(** On an ordered raw stream the samples of a bucket lie in
    [[anchor, anchor + 10 s)]. *)
Lemma buckets_of_ordered_stream (bs : list (list Point.t)) :
  non_decreasing (List.concat bs) ->
  Forall is_bucket bs ->
  Forall (fun b =>
            match b with
            | [] => False
            | p0 :: rest =>
                Forall (fun p => Point.timestamp p0 <= Point.timestamp p
                                 < Point.timestamp p0 + POINT_INTERVAL_TIME) rest
            end) bs.
Proof.
  induction bs as [|b bs IH]; intros Hord Hbs; [constructor|].
  inversion Hbs as [|b' bs' Hb Hrest]; subst.
  cbn [List.concat] in Hord. constructor.
  - destruct b as [|p0 rest]; [contradiction|].
    apply adjacent_app_l in Hord. apply non_decreasing_head in Hord.
    cbn [is_bucket] in Hb. unfold in_window in Hb.
    rewrite Forall_forall in *. intros p Hp.
    specialize (Hord p Hp). specialize (Hb p Hp). cbn beta in Hord. lia.
  - apply IH; [|assumption]. eapply non_decreasing_app_r. exact Hord.
Qed.

(** C6: for every raw stream, ordered or not, [get_point] returns samples
    whose every two neighbours are at least the window width apart, the
    last flushed one included, so their timestamps never decrease. *)
Theorem get_point_window_separated (raw : list Point.t) :
  exists outs : list Point.t,
    get_point raw = Ok outs /\ window_separated outs /\ non_decreasing outs.
Proof.
  assert (Hsep : exists outs, get_point raw = Ok outs /\ window_separated outs).
  { unfold get_point. destruct raw as [|point raw].
    - exists []. split; [reflexivity | exact I].
    - cbn [get_point_from].
      destruct (get_point_from_buckets raw [point] (fresh_ident (point :: raw)))
        as (extra & bs & outs & Hrun & _ & _ & Hadj & Havg); [simpl; constructor|].
      exists outs. split; [assumption|].
      eapply averages_separated; eassumption. }
  destruct Hsep as (outs & Hrun & Hsep).
  exists outs. split; [assumption|].
  split; [assumption | apply window_separated_non_decreasing; assumption].
Qed.

End Resampler.

Example get_point_raw_track :
  get_point raw_track =
  Ok [sample 5 0 36 140; sample 6 12 41 151].
Proof. vm_compute. reflexivity. Qed.

(** ** Track analyzer *)

Section Analyzer.
Context {M : PyMath}.

(** The first sample only seeds the route. *)
Lemma analyzer_step_first (min_speed min_turn : float) (st : analyzer) (point : Point.t) :
  prev_point st = None ->
  analyzer_step min_speed min_turn st point =
  Ok (Analyzer (stop_points st) (stop_point st) (Some point)
               (route st ++ [latlng point]) (prev_vector st)).
Proof. intro H. unfold analyzer_step. rewrite H. reflexivity. Qed.

(** Every later sample: what a returning iteration leaves in the locals. *)
Lemma analyzer_step_next (min_speed min_turn : float) (st st' : analyzer)
      (prev point : Point.t) :
  prev_point st = Some prev ->
  analyzer_step min_speed min_turn st point = Ok st' ->
  exists speed : float,
    get_speed_from_points prev point = Ok speed /\
    prev_point st' = Some point /\
    prev_vector st' = get_vector (latlng prev) (latlng point) /\
    route st' =
      (if PrimFloat.leb min_turn
            (PrimFloat.abs (PrimFloat.sub (get_vector (latlng prev) (latlng point))
                                          (prev_vector st)))
       then route st ++ [latlng point] else route st) /\
    (if PrimFloat.ltb speed min_speed then
       stop_points st' = stop_points st /\
       stop_point st' =
         Some (match stop_point st with
               | Some sp =>
                   StopPoint.make (StopPoint.latitude sp) (StopPoint.longitude sp)
                                  (StopPoint.start_time sp)
                                  (Point.timestamp point + TIME_ZONE_DIFF)
               | None =>
                   StopPoint.make (Point.latitude point) (Point.longitude point)
                                  (Point.timestamp point + TIME_ZONE_DIFF)
                                  (Point.timestamp point + TIME_ZONE_DIFF)
               end)
     else
       stop_point st' = None /\
       stop_points st' =
         match stop_point st with
         | Some sp => stop_points st ++ [sp]
         | None => stop_points st
         end).
Proof.
  intros Hprev Hstep. unfold analyzer_step in Hstep. rewrite Hprev in Hstep.
  inv_bind Hstep. exists a. split; [assumption|].
  destruct (PrimFloat.ltb a min_speed); destruct (stop_point st);
    injection Hstep as <-; simpl; auto.
Qed.

(** The two classifications of a returning iteration, run forward. *)
Lemma analyzer_step_stopped (min_speed min_turn : float) (st : analyzer)
      (prev point : Point.t) (speed : float) :
  prev_point st = Some prev ->
  get_speed_from_points prev point = Ok speed ->
  PrimFloat.ltb speed min_speed = true ->
  analyzer_step min_speed min_turn st point =
  Ok (Analyzer
        (stop_points st)
        (Some (match stop_point st with
               | Some sp =>
                   StopPoint.make (StopPoint.latitude sp) (StopPoint.longitude sp)
                                  (StopPoint.start_time sp)
                                  (Point.timestamp point + TIME_ZONE_DIFF)
               | None =>
                   StopPoint.make (Point.latitude point) (Point.longitude point)
                                  (Point.timestamp point + TIME_ZONE_DIFF)
                                  (Point.timestamp point + TIME_ZONE_DIFF)
               end))
        (Some point)
        (if PrimFloat.leb min_turn
              (PrimFloat.abs (PrimFloat.sub (get_vector (latlng prev) (latlng point))
                                            (prev_vector st)))
         then route st ++ [latlng point] else route st)
        (get_vector (latlng prev) (latlng point))).
Proof.
  intros Hprev Hspeed Hlt. unfold analyzer_step.
  rewrite Hprev, Hspeed. cbn [bind]. rewrite Hlt.
  destruct (stop_point st); reflexivity.
Qed.

Lemma analyzer_step_moving (min_speed min_turn : float) (st : analyzer)
      (prev point : Point.t) (speed : float) :
  prev_point st = Some prev ->
  get_speed_from_points prev point = Ok speed ->
  PrimFloat.ltb speed min_speed = false ->
  analyzer_step min_speed min_turn st point =
  Ok (Analyzer
        (match stop_point st with
         | Some sp => stop_points st ++ [sp]
         | None => stop_points st
         end)
        None
        (Some point)
        (if PrimFloat.leb min_turn
              (PrimFloat.abs (PrimFloat.sub (get_vector (latlng prev) (latlng point))
                                            (prev_vector st)))
         then route st ++ [latlng point] else route st)
        (get_vector (latlng prev) (latlng point))).
Proof.
  intros Hprev Hspeed Hlt. unfold analyzer_step.
  rewrite Hprev, Hspeed. cbn [bind]. rewrite Hlt.
  destruct (stop_point st); reflexivity.
Qed.

Lemma analyzer_step_prev (min_speed min_turn : float) (st st' : analyzer) (point : Point.t) :
  analyzer_step min_speed min_turn st point = Ok st' -> prev_point st' = Some point.
Proof.
  intro H. destruct (prev_point st) as [prev|] eqn:Hprev.
  - destruct (analyzer_step_next _ _ _ _ _ _ Hprev H) as (_ & _ & Hp & _). exact Hp.
  - rewrite analyzer_step_first in H by assumption. now injection H as <-.
Qed.

Lemma analyzer_loop_app (min_speed min_turn : float) (l1 l2 : list Point.t) :
  forall st : analyzer,
    analyzer_loop min_speed min_turn st (l1 ++ l2) =
    (st' <- analyzer_loop min_speed min_turn st l1;;
     analyzer_loop min_speed min_turn st' l2).
Proof.
  induction l1 as [|p l1 IH]; intro st; simpl; [reflexivity|].
  destruct (analyzer_step min_speed min_turn st p) as [st1|e]; simpl; [apply IH | reflexivity].
Qed.

(** The route and the list of stops only grow at their ends. *)
Lemma analyzer_step_grows (min_speed min_turn : float) (st st' : analyzer) (point : Point.t) :
  analyzer_step min_speed min_turn st point = Ok st' ->
  (exists later, route st' = route st ++ later) /\
  (exists closed, stop_points st' = stop_points st ++ closed).
Proof.
  intro H. destruct (prev_point st) as [prev|] eqn:Hprev.
  - destruct (analyzer_step_next _ _ _ _ _ _ Hprev H) as (speed & _ & _ & _ & Hroute & Hstop).
    split.
    + rewrite Hroute.
      destruct (PrimFloat.leb _ _); [eauto | exists []; now rewrite app_nil_r].
    + destruct (PrimFloat.ltb speed min_speed).
      * destruct Hstop as [-> _]. exists []. now rewrite app_nil_r.
      * destruct Hstop as [_ ->].
        destruct (stop_point st); [eauto | exists []; now rewrite app_nil_r].
  - rewrite analyzer_step_first in H by assumption. injection H as <-. simpl.
    split; [eauto | exists []; now rewrite app_nil_r].
Qed.

Lemma analyzer_loop_grows (min_speed min_turn : float) (points : list Point.t) :
  forall st st' : analyzer,
    analyzer_loop min_speed min_turn st points = Ok st' ->
    (exists later, route st' = route st ++ later) /\
    (exists closed, stop_points st' = stop_points st ++ closed).
Proof.
  induction points as [|p points IH]; intros st st' H; simpl in H.
  - injection H as <-. split; exists []; now rewrite app_nil_r.
  - inv_bind H.
    destruct (analyzer_step_grows _ _ _ _ _ Ha) as [[r1 Hr1] [c1 Hc1]].
    destruct (IH _ _ H) as [[r2 Hr2] [c2 Hc2]].
    split; [exists (r1 ++ r2) | exists (c1 ++ c2)];
      rewrite app_assoc; congruence.
Qed.

(** The speed computation is the only part of an iteration that can raise. *)
Lemma analyzer_step_returns (min_speed min_turn : float) (st : analyzer) (point : Point.t) :
  (forall prev : Point.t,
      prev_point st = Some prev ->
      exists speed : float, get_speed_from_points prev point = Ok speed) ->
  exists st' : analyzer, analyzer_step min_speed min_turn st point = Ok st'.
Proof.
  intro Hspeed. unfold analyzer_step.
  destruct (prev_point st) as [prev|]; [|eexists; reflexivity].
  destruct (Hspeed prev eq_refl) as [speed ->]. cbn [bind].
  destruct (PrimFloat.ltb speed min_speed); destruct (stop_point st);
    eexists; reflexivity.
Qed.

Lemma analyzer_loop_returns (min_speed min_turn : float) (points : list Point.t) :
  forall st : analyzer,
    match prev_point st with
    | Some prev => speeds_return (prev :: points)
    | None => speeds_return points
    end ->
    exists st' : analyzer, analyzer_loop min_speed min_turn st points = Ok st'.
Proof.
  induction points as [|p points IH]; intros st Hret; [eexists; reflexivity|].
  cbn [analyzer_loop].
  destruct (analyzer_step_returns min_speed min_turn st p) as [st1 Hst1].
  { intros prev Hprev. rewrite Hprev in Hret. apply Hret. }
  rewrite Hst1. cbn [bind]. apply IH.
  rewrite (analyzer_step_prev _ _ _ _ _ Hst1).
  destruct (prev_point st); [apply Hret | exact Hret].
Qed.

(** C7: whenever the analysis of a non-empty resampled stream returns, the
    returned route begins with the position of the first sample; this holds
    for every pair of thresholds; the iteration on the first sample always
    returns, with the route holding just that position; and the analysis
    does return when every speed computation between neighbours does. *)
Theorem route_starts_at_first_sample (p : Point.t) (ps : list Point.t) :
  (forall (stops : list StopPoint.t) (rt : list position),
      analyze (p :: ps) = Ok (stops, rt) -> exists rest, rt = latlng p :: rest) /\
  (forall (min_speed min_turn : float) (st : analyzer),
      analyzer_loop min_speed min_turn analyzer_init (p :: ps) = Ok st ->
      exists rest, route st = latlng p :: rest) /\
  (forall min_speed min_turn : float,
      analyzer_loop min_speed min_turn analyzer_init [p] =
      Ok (Analyzer [] None (Some p) [latlng p] 0%float)) /\
  (speeds_return (p :: ps) ->
   exists (stops : list StopPoint.t) (rt : list position),
     analyze (p :: ps) = Ok (stops, rt)).
Proof.
  assert (Hgen : forall (min_speed min_turn : float) (st : analyzer),
             analyzer_loop min_speed min_turn analyzer_init (p :: ps) = Ok st ->
             exists rest, route st = latlng p :: rest).
  { intros min_speed min_turn st H. cbn [analyzer_loop] in H.
    rewrite analyzer_step_first in H by reflexivity. cbn [bind] in H.
    destruct (analyzer_loop_grows _ _ _ _ _ H) as [[later Hlater] _].
    exists later. rewrite Hlater. reflexivity. }
  split; [|split; [exact Hgen | split; [reflexivity|]]].
  - intros stops rt H. unfold analyze in H. inv_bind H. injection H as _ <-.
    eapply Hgen. exact Ha.
  - intro Hret. unfold analyze.
    destruct (analyzer_loop_returns MIN_SPEED MIN_TURN (p :: ps) analyzer_init Hret)
      as [st Hst].
    unfold get_stop_points_loop. rewrite Hst. cbn [bind]. eauto.
Qed.

End Analyzer.

Section Stops.
Context {M : PyMath}.

Lemma stops_invariant_step (min_speed min_turn : float) (st st' : analyzer) (point : Point.t) :
  stops_invariant st ->
  ordered_after st [point] ->
  analyzer_step min_speed min_turn st point = Ok st' ->
  stops_invariant st'.
Proof.
  intros [Hclosed Hopen] Hord Hstep.
  unfold ordered_after in Hord.
  destruct (prev_point st) as [prev|] eqn:Hprev.
  - destruct (analyzer_step_next _ _ _ _ _ _ Hprev Hstep)
      as (speed & _ & Hp & _ & _ & Hstop).
    destruct Hord as [Hle _].
    destruct (PrimFloat.ltb speed min_speed).
    + destruct Hstop as [Hsame Hnew]. split; [rewrite Hsame; assumption|].
      intros sp' Hsp'. rewrite Hnew in Hsp'. injection Hsp' as <-.
      destruct (stop_point st) as [sp|] eqn:Hsp.
      * destruct (Hopen sp eq_refl) as [Hwf [prev' [Hprev' Hend]]].
        injection Hprev' as <-.
        unfold well_formed in *. simpl.
        split; [lia | exists point; split; [assumption | lia]].
      * unfold well_formed. simpl.
        split; [lia | exists point; split; [assumption | lia]].
    + destruct Hstop as [Hnone Hnew]. split.
      * rewrite Hnew. destruct (stop_point st) as [sp|] eqn:Hsp; [|assumption].
        apply Forall_app. split; [assumption|].
        constructor; [apply (Hopen sp eq_refl) | constructor].
      * intros sp' Hsp'. congruence.
  - rewrite analyzer_step_first in Hstep by assumption. injection Hstep as <-.
    split; [assumption|]. simpl. intros sp Hsp.
    destruct (Hopen sp Hsp) as [_ [prev [Hprev' _]]]. discriminate.
Qed.

Lemma stops_invariant_loop (min_speed min_turn : float) (points : list Point.t) :
  forall st st' : analyzer,
    stops_invariant st ->
    ordered_after st points ->
    analyzer_loop min_speed min_turn st points = Ok st' ->
    stops_invariant st'.
Proof.
  induction points as [|p points IH]; intros st st' Hinv Hord Hloop; simpl in Hloop.
  - now injection Hloop as <-.
  - inv_bind Hloop.
    apply (IH a st'); [| |assumption].
    + apply (stops_invariant_step min_speed min_turn st a p); [assumption| |assumption].
      unfold ordered_after in *. destruct (prev_point st); [|exact I].
      destruct Hord as [Hle _]. split; [assumption | exact I].
    + unfold ordered_after in *.
      rewrite (analyzer_step_prev _ _ _ _ _ Ha).
      destruct (prev_point st); [destruct Hord as [_ Hord]|]; exact Hord.
Qed.

(** C8: on a resampled stream whose timestamps never decrease, after any
    number of samples consumed without an exception, every stop in the list
    of stops and the open stop, if there is one, satisfy
    [start_time <= end_time]. *)
Theorem stop_points_well_formed (consumed pending : list Point.t) (st : analyzer) :
  non_decreasing (consumed ++ pending) ->
  get_stop_points_loop analyzer_init consumed = Ok st ->
  Forall well_formed (stop_points st) /\
  forall sp : StopPoint.t, stop_point st = Some sp -> well_formed sp.
Proof.
  intros Hord Hloop.
  assert (Hinv : stops_invariant st).
  { apply (stops_invariant_loop MIN_SPEED MIN_TURN consumed analyzer_init st);
      [| |exact Hloop].
    - split; [constructor | discriminate].
    - unfold ordered_after. simpl. eapply adjacent_app_l. exact Hord. }
  destruct Hinv as [Hclosed Hopen]. split; [assumption|].
  intros sp Hsp. apply (Hopen sp Hsp).
Qed.

(** Through the resampler the ordering comes for free: the stops
    [get_stop_points] returns are well formed on every raw stream. *)
Lemma returned_stops_well_formed
      (raw : list Point.t) (stops : list StopPoint.t) (rt : list position) :
  get_stop_points raw = Ok (stops, rt) -> Forall well_formed stops.
Proof.
  intro H. unfold get_stop_points in H. inv_bind H.
  unfold analyze in H. inv_bind H. injection H as <- _.
  assert (Hsep : window_separated a).
  { unfold get_point in Ha. destruct raw as [|point raw].
    - injection Ha as <-. exact I.
    - cbn [get_point_from] in Ha.
      destruct (get_point_from_buckets raw [point] (fresh_ident (point :: raw)))
        as (extra & bs & outs & Hrun & _ & _ & Hadj & Havg); [simpl; constructor|].
      rewrite Hrun in Ha. injection Ha as <-.
      eapply averages_separated; eassumption. }
  apply (stops_invariant_loop MIN_SPEED MIN_TURN a analyzer_init a0); [| |exact Ha0].
  - split; [constructor | discriminate].
  - apply window_separated_non_decreasing, Hsep.
Qed.

(** One iteration from an open stop either keeps it open, touching only
    [end_time], or closes it by appending it to the list of stops. *)
Lemma analyzer_step_open_stop (min_speed min_turn : float) (st st' : analyzer)
      (point : Point.t) (sp : StopPoint.t) :
  stop_point st = Some sp ->
  analyzer_step min_speed min_turn st point = Ok st' ->
  (stop_points st' = stop_points st /\
   exists sp' : StopPoint.t,
     stop_point st' = Some sp' /\
     StopPoint.latitude sp' = StopPoint.latitude sp /\
     StopPoint.longitude sp' = StopPoint.longitude sp /\
     StopPoint.start_time sp' = StopPoint.start_time sp) \/
  (stop_points st' = stop_points st ++ [sp] /\ stop_point st' = None).
Proof.
  intros Hsp Hstep. destruct (prev_point st) as [prev|] eqn:Hprev.
  - destruct (analyzer_step_next _ _ _ _ _ _ Hprev Hstep)
      as (speed & _ & _ & _ & _ & Hstop).
    rewrite Hsp in Hstop. destruct (PrimFloat.ltb speed min_speed).
    + left. destruct Hstop as [Hsame Hnew]. split; [assumption|].
      eexists. split; [exact Hnew|]. simpl. auto.
    + right. destruct Hstop as [Hnone Hnew]. auto.
  - rewrite analyzer_step_first in Hstep by assumption. injection Hstep as <-.
    left. simpl. split; [reflexivity|]. exists sp. auto.
Qed.

(** After an iteration that had a previous sample, an open stop ends at
    the sample just consumed. *)
Lemma analyzer_step_end_time (min_speed min_turn : float) (st st' : analyzer)
      (point : Point.t) (sp' : StopPoint.t) :
  prev_point st <> None ->
  analyzer_step min_speed min_turn st point = Ok st' ->
  stop_point st' = Some sp' ->
  StopPoint.end_time sp' = Point.timestamp point + TIME_ZONE_DIFF.
Proof.
  intros Hprev Hstep Hsp'. destruct (prev_point st) as [prev|] eqn:Hp; [|congruence].
  destruct (analyzer_step_next _ _ _ _ _ _ Hp Hstep) as (speed & _ & _ & _ & _ & Hstop).
  destruct (PrimFloat.ltb speed min_speed).
  - destruct Hstop as [_ Hnew]. rewrite Hnew in Hsp'. injection Hsp' as <-.
    destruct (stop_point st); reflexivity.
  - destruct Hstop as [Hnone _]. congruence.
Qed.

Lemma app_eq_self {A : Type} (l ext : list A) : l ++ ext = l -> ext = [].
Proof.
  intro H. apply (f_equal (@List.length A)) in H. rewrite length_app in H.
  destruct ext; [reflexivity | simpl in H; lia].
Qed.

Lemma open_stop_fields_kept (min_speed min_turn : float) (points : list Point.t) :
  forall (st st' : analyzer) (sp sp' : StopPoint.t),
    analyzer_loop min_speed min_turn st points = Ok st' ->
    stop_point st = Some sp ->
    stop_point st' = Some sp' ->
    stop_points st' = stop_points st ->
    StopPoint.latitude sp' = StopPoint.latitude sp /\
    StopPoint.longitude sp' = StopPoint.longitude sp /\
    StopPoint.start_time sp' = StopPoint.start_time sp.
Proof.
  induction points as [|p points IH]; intros st st' sp sp' Hloop Hsp Hsp' Hsame;
    simpl in Hloop.
  - injection Hloop as <-. rewrite Hsp in Hsp'. injection Hsp' as <-. auto.
  - inv_bind Hloop.
    destruct (analyzer_loop_grows _ _ _ _ _ Hloop) as [_ [closed Hclosed]].
    destruct (analyzer_step_open_stop _ _ _ _ _ _ Hsp Ha)
      as [[Hkeep (sp1 & Hsp1 & Hlat & Hlng & Hstart)] | [Happ _]].
    + destruct (IH a st' sp1 sp' Hloop Hsp1 Hsp') as (H1 & H2 & H3); [congruence|].
      repeat split; congruence.
    + exfalso. rewrite Happ, <- app_assoc, Hsame in Hclosed.
      symmetry in Hclosed. apply app_eq_self in Hclosed. discriminate.
Qed.

(** C9: over any run of samples during which a stop stays open (the loop
    returns, a stop is open before and after, and nothing was appended to
    the list of stops in between), the stop keeps its latitude, its
    longitude and its start time; its end time is the timestamp of the last
    sample of the run plus the display offset. *)
Theorem open_stop_frame (points : list Point.t) (st st' : analyzer) (sp sp' : StopPoint.t) :
  get_stop_points_loop st points = Ok st' ->
  stop_point st = Some sp ->
  stop_point st' = Some sp' ->
  stop_points st' = stop_points st ->
  StopPoint.latitude sp' = StopPoint.latitude sp /\
  StopPoint.longitude sp' = StopPoint.longitude sp /\
  StopPoint.start_time sp' = StopPoint.start_time sp /\
  forall (front : list Point.t) (last : Point.t),
    points = front ++ [last] ->
    prev_point st <> None ->
    StopPoint.end_time sp' = Point.timestamp last + TIME_ZONE_DIFF.
Proof.
  intros Hloop Hsp Hsp' Hsame.
  destruct (open_stop_fields_kept _ _ _ _ _ _ _ Hloop Hsp Hsp' Hsame) as (H1 & H2 & H3).
  repeat (split; [assumption|]).
  intros front last -> Hprev.
  unfold get_stop_points_loop in Hloop. rewrite analyzer_loop_app in Hloop.
  inv_bind Hloop. cbn [analyzer_loop] in Hloop. inv_bind Hloop.
  injection Hloop as ->.
  apply (analyzer_step_end_time MIN_SPEED MIN_TURN a st' last sp'); [|assumption|assumption].
  destruct front as [|p front].
  - simpl in Ha. now injection Ha as <-.
  - assert (Hlast : exists q st0, analyzer_step MIN_SPEED MIN_TURN st0 q = Ok a).
    { clear - Ha. revert st Ha. generalize p. induction front as [|p' front IH]; intros q st Ha.
      - simpl in Ha. inv_bind Ha. injection Ha as <-. eauto.
      - cbn [analyzer_loop] in Ha. inv_bind Ha. apply (IH p' a0). exact Ha. }
    destruct Hlast as (q & st0 & Hq).
    rewrite (analyzer_step_prev _ _ _ _ _ Hq). discriminate.
Qed.

End Stops.

Section Scenarios.
Context {M : PyMath}.

(** C10: the analyzer starts from the bearing 0.  Whenever the loop returns
    on a stream of at least two samples, the route after the second sample
    is the first position followed by the second exactly when the bearing
    from the first to the second sample is at least 0.1 away from that
    initial 0, and the final route continues this one. *)
Theorem second_vertex_by_initial_bearing
        (p1 p2 : Point.t) (rest : list Point.t) (st : analyzer) :
  get_stop_points_loop analyzer_init (p1 :: p2 :: rest) = Ok st ->
  let vector := get_vector (latlng p1) (latlng p2) in
  let turned := PrimFloat.leb MIN_TURN (PrimFloat.abs (PrimFloat.sub vector 0%float)) in
  prev_vector analyzer_init = 0%float /\
  exists (st2 : analyzer) (later : list position),
    get_stop_points_loop analyzer_init [p1; p2] = Ok st2 /\
    route st2 = latlng p1 :: (if turned then [latlng p2] else []) /\
    prev_vector st2 = vector /\
    route st = route st2 ++ later.
Proof.
  intros Hloop vector turned. split; [reflexivity|].
  unfold get_stop_points_loop in *.
  change (p1 :: p2 :: rest) with ([p1; p2] ++ rest) in Hloop.
  rewrite analyzer_loop_app in Hloop. inv_bind Hloop.
  destruct (analyzer_loop_grows _ _ _ _ _ Hloop) as [[later Hlater] _].
  exists a, later. split; [exact Ha|]. split; [|split; [|assumption]].
  - cbn [analyzer_loop] in Ha.
    rewrite analyzer_step_first in Ha by reflexivity. cbn [bind] in Ha.
    inv_bind Ha. injection Ha as <-.
    pose proof (fun H => analyzer_step_next _ _ _ _ p1 p2 H Ha0) as Hnext.
    destruct (Hnext eq_refl) as (_ & _ & _ & _ & Hroute & _).
    rewrite Hroute. cbn [route prev_vector analyzer_init app].
    fold vector. fold turned. destruct turned; reflexivity.
  - cbn [analyzer_loop] in Ha.
    rewrite analyzer_step_first in Ha by reflexivity. cbn [bind] in Ha.
    inv_bind Ha. injection Ha as <-.
    pose proof (fun H => analyzer_step_next _ _ _ _ p1 p2 H Ha0) as Hnext.
    destruct (Hnext eq_refl) as (_ & _ & _ & Hvec & _).
    exact Hvec.
Qed.

(** Two samples at the same position, ten seconds apart: speed 0 km/h. *)
Lemma get_speed_from_points_at_rest (point1 point2 : Point.t) :
  tuple_eq (latlng point1) (latlng point2) = true ->
  Point.timestamp point2 = Point.timestamp point1 + timedelta_of_seconds 10 ->
  get_speed_from_points point1 point2 = Ok 0%float.
Proof.
  intros Hpos Ht. unfold get_speed_from_points.
  rewrite (get_distance_same _ _ _ Hpos). cbn [bind].
  replace (Point.timestamp point2 - Point.timestamp point1)
    with (timedelta_of_seconds 10) by lia.
  reflexivity.
Qed.

(** C1, as the code has it: on three consecutive resampled samples at the
    same position, ten seconds apart each, both speeds are 0 km/h; the
    analyzer opens one stop at the second sample and extends it at the
    third, so that the stop spans from the second to the last timestamp
    (each plus the display offset): 10 seconds, 0 elapsed minutes, rendered
    "0m".  A following sample classified as moving closes the stop, and it
    is then the one stop of the returned list. *)
Theorem rest_of_three_samples (p1 p2 p3 : Point.t) :
  tuple_eq (latlng p1) (latlng p2) = true ->
  tuple_eq (latlng p2) (latlng p3) = true ->
  Point.timestamp p2 = Point.timestamp p1 + timedelta_of_seconds 10 ->
  Point.timestamp p3 = Point.timestamp p2 + timedelta_of_seconds 10 ->
  let sp := StopPoint.make (Point.latitude p2) (Point.longitude p2)
                           (Point.timestamp p2 + TIME_ZONE_DIFF)
                           (Point.timestamp p3 + TIME_ZONE_DIFF) in
  get_speed_from_points p1 p2 = Ok 0%float /\
  get_speed_from_points p2 p3 = Ok 0%float /\
  (exists st : analyzer,
      get_stop_points_loop analyzer_init [p1; p2; p3] = Ok st /\
      stop_point st = Some sp) /\
  StopPoint.end_time sp - StopPoint.start_time sp = timedelta_of_seconds 10 /\
  get_elapsed_time sp = Ok 0 /\
  elapsed_time_to_str 0 = Ok "0m"%string /\
  forall (p4 : Point.t) (speed : float),
    get_speed_from_points p3 p4 = Ok speed ->
    PrimFloat.ltb speed MIN_SPEED = false ->
    exists rt : list position, analyze [p1; p2; p3; p4] = Ok ([sp], rt).
Proof.
  intros H12 H23 Ht2 Ht3 sp.
  pose proof (get_speed_from_points_at_rest p1 p2 H12 Ht2) as Hv12.
  pose proof (get_speed_from_points_at_rest p2 p3 H23 Ht3) as Hv23.
  assert (Hrun : exists rt v,
             get_stop_points_loop analyzer_init [p1; p2; p3] =
             Ok (Analyzer [] (Some sp) (Some p3) rt v)).
  { unfold get_stop_points_loop. cbn [analyzer_loop].
    rewrite analyzer_step_first by reflexivity. cbn [bind].
    rewrite (analyzer_step_stopped _ _ _ p1 p2 0%float) by (assumption || reflexivity).
    cbn [bind].
    rewrite (analyzer_step_stopped _ _ _ p2 p3 0%float) by (assumption || reflexivity).
    cbn [bind stop_point stop_points analyzer_init
         StopPoint.latitude StopPoint.longitude StopPoint.start_time].
    eexists. eexists. reflexivity. }
  destruct Hrun as (rt3 & v3 & Hrun).
  split; [assumption|]. split; [assumption|].
  split; [eexists; split; [exact Hrun | reflexivity]|].
  assert (Hspan : StopPoint.end_time sp - StopPoint.start_time sp = timedelta_of_seconds 10)
    by (unfold sp; cbn [StopPoint.end_time StopPoint.start_time]; lia).
  split; [assumption|].
  split; [rewrite get_elapsed_time_eq, Hspan; reflexivity|].
  split; [reflexivity|].
  intros p4 speed Hv34 Hmoving.
  unfold analyze, get_stop_points_loop.
  change [p1; p2; p3; p4] with ([p1; p2; p3] ++ [p4]).
  rewrite analyzer_loop_app. fold get_stop_points_loop. rewrite Hrun.
  cbn [bind]. unfold get_stop_points_loop. cbn [analyzer_loop].
  rewrite (analyzer_step_moving _ _ _ p3 p4 speed) by (assumption || reflexivity).
  cbn [bind stop_point stop_points route app]. eexists. reflexivity.
Qed.

End Scenarios.

(** ** The scenarios on concrete tracks *)

(** C1 as stated fails: after the three samples the list of stops returned
    is empty, and the stop the analyzer has open starts at the second
    sample, ten seconds before its end. *)
Lemma three_samples_return_no_stop :
  analyze [rest1; rest2; rest3] = Ok ([], [latlng rest1]) /\
  get_stop_points [rest1; rest2; rest3] = Ok ([], [latlng (sample 3 0 35 139)]) /\
  get_stop_points_loop analyzer_init [rest1; rest2; rest3] = Ok extended_state /\
  stop_point extended_state = Some rest_stop /\
  StopPoint.start_time rest_stop = Point.timestamp rest2 + TIME_ZONE_DIFF /\
  StopPoint.end_time rest_stop - StopPoint.start_time rest_stop = timedelta_of_seconds 10.
Proof. repeat split. Qed.

Lemma rest_of_three_samples_witness :
  get_speed_from_points rest1 rest2 = Ok 0%float /\
  get_speed_from_points rest2 rest3 = Ok 0%float /\
  (exists st : analyzer,
      get_stop_points_loop analyzer_init [rest1; rest2; rest3] = Ok st /\
      stop_point st = Some rest_stop) /\
  StopPoint.end_time rest_stop - StopPoint.start_time rest_stop = timedelta_of_seconds 10 /\
  get_elapsed_time rest_stop = Ok 0 /\
  elapsed_time_to_str 0 = Ok "0m"%string /\
  forall (p4 : Point.t) (speed : float),
    get_speed_from_points rest3 p4 = Ok speed ->
    PrimFloat.ltb speed MIN_SPEED = false ->
    exists rt : list position, analyze [rest1; rest2; rest3; p4] = Ok ([rest_stop], rt).
Proof.
  exact (rest_of_three_samples rest1 rest2 rest3 eq_refl eq_refl eq_refl eq_refl).
Defined.

Example analyze_rest_track :
  analyze rest_track = Ok ([rest_stop], [latlng rest1; latlng north4; latlng east5]).
Proof. vm_compute. reflexivity. Qed.

Lemma route_starts_at_first_sample_witness :
  exists rest : list position,
    [latlng rest1; latlng north4; latlng east5] = latlng rest1 :: rest.
Proof.
  apply (proj1 (route_starts_at_first_sample rest1 [rest2; rest3; north4; east5])
               [rest_stop]).
  vm_compute. reflexivity.
Defined.

Lemma stop_points_well_formed_witness :
  Forall well_formed (stop_points long_state) /\
  forall sp : StopPoint.t, stop_point long_state = Some sp -> well_formed sp.
Proof.
  apply (stop_points_well_formed long_track [] long_state).
  - vm_compute. repeat split; discriminate.
  - vm_compute. reflexivity.
Defined.

Lemma open_stop_frame_witness :
  StopPoint.latitude rest_stop = StopPoint.latitude opened_stop /\
  StopPoint.longitude rest_stop = StopPoint.longitude opened_stop /\
  StopPoint.start_time rest_stop = StopPoint.start_time opened_stop /\
  forall (front : list Point.t) (last : Point.t),
    [rest3] = front ++ [last] ->
    prev_point opened_state <> None ->
    StopPoint.end_time rest_stop = Point.timestamp last + TIME_ZONE_DIFF.
Proof.
  apply (open_stop_frame [rest3] opened_state extended_state opened_stop rest_stop);
    reflexivity.
Defined.

Example opened_state_reached :
  get_stop_points_loop analyzer_init [rest1; rest2] = Ok opened_state.
Proof. vm_compute. reflexivity. Qed.

(** A second sample due north enters the route; a second sample due east,
    over 90 metres away, does not. *)
Lemma second_vertex_by_initial_bearing_witness :
  (exists (st2 : analyzer) (later : list position),
      get_stop_points_loop analyzer_init [rest1; north2] = Ok st2 /\
      route st2 = [latlng rest1; latlng north2] /\
      prev_vector st2 = get_vector (latlng rest1) (latlng north2) /\
      [latlng rest1; latlng north2] = route st2 ++ later) /\
  (exists (st2 : analyzer) (later : list position),
      get_stop_points_loop analyzer_init [rest1; east2] = Ok st2 /\
      route st2 = [latlng rest1] /\
      prev_vector st2 = get_vector (latlng rest1) (latlng east2) /\
      [latlng rest1] = route st2 ++ later).
Proof.
  split.
  - exact (proj2 (second_vertex_by_initial_bearing rest1 north2 []
                    (Analyzer [] None (Some north2) [latlng rest1; latlng north2]
                              (get_vector (latlng rest1) (latlng north2)))
                    eq_refl)).
  - exact (proj2 (second_vertex_by_initial_bearing rest1 east2 []
                    (Analyzer [] None (Some east2) [latlng rest1]
                              (get_vector (latlng rest1) (latlng east2)))
                    eq_refl)).
Defined.

(* ================================================================== *)
(** * Further properties *)

(** ** Derived stop metrics, continued *)

(** X1: [get_elapsed_time] never raises and never leaves [0 .. 1440], whatever
    the two times of the stop are, [end_time < start_time] included. *)
Theorem get_elapsed_time_bounded (sp : StopPoint.t) :
  exists m : Z, get_elapsed_time sp = Ok m /\ 0 <= m <= 1440.
Proof.
  rewrite get_elapsed_time_eq. eexists. split; [reflexivity|].
  pose proof (seconds_range (StopPoint.end_time sp - StopPoint.start_time sp)) as Hs.
  split.
  - apply Z.div_pos; lia.
  - enough ((seconds (StopPoint.end_time sp - StopPoint.start_time sp) + 30) / 60 < 1441)
      by lia.
    apply Z.div_lt_upper_bound; lia.
Qed.

Lemma seconds_add_days (d : timedelta) (k : Z) :
  seconds (d + k * one_day) = seconds d.
Proof.
  unfold seconds, one_day, timedelta_of_hours, timedelta_of_seconds.
  replace (d + k * (24 * 3600 * 1000000)) with (d + (k * 86400) * 1000000) by lia.
  rewrite Z.div_add by lia.
  rewrite Z.add_mod by lia. rewrite Z.mod_mul by lia.
  rewrite Z.add_0_r. apply Z.mod_mod. lia.
Qed.

(** X2: Moving the end of a stop by any whole number of days, forward or
    backward, does not change what [get_elapsed_time] returns. *)
Theorem get_elapsed_time_whole_days (sp : StopPoint.t) (k : Z) :
  get_elapsed_time
    (StopPoint.make (StopPoint.latitude sp) (StopPoint.longitude sp)
                    (StopPoint.start_time sp)
                    (StopPoint.end_time sp + k * one_day)) =
  get_elapsed_time sp.
Proof.
  rewrite !get_elapsed_time_eq. cbn [StopPoint.start_time StopPoint.end_time].
  replace (StopPoint.end_time sp + k * one_day - StopPoint.start_time sp)
    with (StopPoint.end_time sp - StopPoint.start_time sp + k * one_day) by lia.
  now rewrite seconds_add_days.
Qed.

Lemma hours_check_all :
  forallb hours_check (range 1381 60) = true.
Proof. vm_compute. reflexivity. Qed.

Lemma elapsed_time_to_str_eq (elapsed_time : Z) :
  elapsed_time <= 1440 ->
  elapsed_time_to_str elapsed_time = Ok (duration_label elapsed_time).
Proof.
  intro Hmax. unfold elapsed_time_to_str, duration_label.
  destruct (Z.geb_spec elapsed_time 60) as [Hge|Hlt]; [|reflexivity].
  pose proof hours_check_all as Hall. rewrite forallb_forall in Hall.
  assert (Hin : In elapsed_time (range 1381 60))
    by (apply in_range; change (Z.of_nat 1381) with 1381; lia).
  specialize (Hall _ Hin). unfold hours_check in Hall.
  destruct (int_truediv elapsed_time 60) as [q|e]; [|discriminate].
  cbn [bind] in *. destruct (py_int q) as [h|e]; [|discriminate].
  apply Z.eqb_eq in Hall. subst h. reflexivity.
Qed.

(** X3: [elapsed_time_to_str] below one hour, negative numbers included, is
    the number followed by "m"; from 60 up to 1440 minutes, the largest
    value [get_elapsed_time] returns, it is the hours, "h", the minutes
    of the hour and "m", and no exception is raised. *)
Theorem elapsed_time_to_str_label (elapsed_time : Z) :
  elapsed_time <= 1440 ->
  elapsed_time_to_str elapsed_time = Ok (duration_label elapsed_time) /\
  (elapsed_time < 60 ->
   elapsed_time_to_str elapsed_time = Ok (str_of_int elapsed_time ++ "m")%string) /\
  (60 <= elapsed_time ->
   elapsed_time_to_str elapsed_time =
   Ok (str_of_int (elapsed_time / 60) ++ "h " ++
       str_of_int (elapsed_time mod 60) ++ "m")%string /\
   1 <= elapsed_time / 60 <= 24 /\ 0 <= elapsed_time mod 60 < 60).
Proof.
  intro Hmax. pose proof (elapsed_time_to_str_eq elapsed_time Hmax) as Hlabel.
  split; [assumption|]. split.
  - intro Hlt. rewrite Hlabel. unfold duration_label.
    destruct (Z.geb_spec elapsed_time 60); [lia | reflexivity].
  - intro Hge. rewrite Hlabel. unfold duration_label.
    destruct (Z.geb_spec elapsed_time 60); [|lia].
    split; [reflexivity|]. split.
    + split; [apply Z.div_le_lower_bound; lia | apply Z.div_le_upper_bound; lia].
    + apply Z.mod_pos_bound. lia.
Qed.

Lemma elapsed_time_to_str_label_witness :
  elapsed_time_to_str 75 = Ok (duration_label 75) /\
  (75 < 60 -> elapsed_time_to_str 75 = Ok (str_of_int 75 ++ "m")%string) /\
  (60 <= 75 ->
   elapsed_time_to_str 75 =
   Ok (str_of_int (75 / 60) ++ "h " ++ str_of_int (75 mod 60) ++ "m")%string /\
   1 <= 75 / 60 <= 24 /\ 0 <= 75 mod 60 < 60).
Proof. apply (elapsed_time_to_str_label 75). lia. Defined.

(** ** Speed, continued *)

Lemma seconds_zero_iff (d : timedelta) :
  seconds d = 0 <-> d mod one_day < timedelta_of_seconds 1.
Proof.
  unfold seconds, one_day, timedelta_of_hours, timedelta_of_seconds.
  replace (24 * 3600 * 1000000) with (1000000 * 86400) by lia.
  rewrite Z.rem_mul_r by lia.
  pose proof (Z.mod_pos_bound d 1000000 ltac:(lia)) as H1.
  pose proof (Z.mod_pos_bound (d / 1000000) 86400 ltac:(lia)) as H2.
  split; intro H; lia.
Qed.

Lemma seconds_eq (d : timedelta) :
  seconds d = (d mod one_day) / timedelta_of_seconds 1.
Proof.
  unfold seconds, one_day, timedelta_of_hours, timedelta_of_seconds.
  change (1 * 1000000) with 1000000.
  replace (24 * 3600 * 1000000) with (1000000 * 86400) by lia.
  rewrite Z.rem_mul_r by lia.
  pose proof (Z.mod_pos_bound d 1000000 ltac:(lia)) as H1.
  replace (d mod 1000000 + 1000000 * ((d / 1000000) mod 86400))
    with (d mod 1000000 + ((d / 1000000) mod 86400) * 1000000) by lia.
  rewrite Z.div_add by lia. rewrite (Z.div_small (d mod 1000000)) by lia. lia.
Qed.

Section Speed.
Context {M : PyMath}.

(** X4: When the distance between two samples is computed, the speed
    computation looks only at the elapsed time within the day: if that is
    below one second (equal timestamps, a gap of whole days, or the second
    sample less than a second after such a gap) it raises
    [ZeroDivisionError]; otherwise it returns the distance over the whole
    seconds within the day, times 3600. *)
Theorem get_speed_from_points_within_day (point1 point2 : Point.t) (km : float) :
  get_distance (latlng point1) (latlng point2) earth_rad = Ok km ->
  let elapsed := (Point.timestamp point2 - Point.timestamp point1) mod one_day in
  (elapsed < timedelta_of_seconds 1 ->
   get_speed_from_points point1 point2 = Raise ZeroDivisionError) /\
  (timedelta_of_seconds 1 <= elapsed ->
   get_speed_from_points point1 point2 =
   Ok (PrimFloat.mul
         (PrimFloat.div km (float_of_Z (elapsed / timedelta_of_seconds 1)))
         (float_of_Z 3600))).
Proof.
  intros Hkm elapsed. split; intro H.
  - apply (get_speed_from_points_zero_seconds _ _ km); [|assumption].
    apply seconds_zero_iff. exact H.
  - rewrite (get_speed_from_points_nonzero_seconds _ _ km); [|
      rewrite seconds_zero_iff; fold elapsed; lia | assumption].
    rewrite seconds_eq. reflexivity.
Qed.

End Speed.

Lemma get_speed_from_points_within_day_witness :
  (86400000000 mod one_day < timedelta_of_seconds 1 ->
   get_speed_from_points day0 day1 = Raise ZeroDivisionError) /\
  (timedelta_of_seconds 1 <= 86400000000 mod one_day ->
   get_speed_from_points day0 day1 =
   Ok (PrimFloat.mul
         (PrimFloat.div 0 (float_of_Z (86400000000 mod one_day / timedelta_of_seconds 1)))
         (float_of_Z 3600))).
Proof.
  exact (get_speed_from_points_within_day day0 day1 0%float eq_refl).
Defined.

(** ** Binary64 facts used below *)

Lemma float_mul_comm (x y : float) : PrimFloat.mul x y = PrimFloat.mul y x.
Proof.
  apply Prim2SF_inj. rewrite !mul_spec. unfold SF64mul, SFmul.
  destruct (Prim2SF x) as [sx|sx| |sx mx ex], (Prim2SF y) as [sy|sy| |sy my ey];
    try reflexivity; rewrite (xorb_comm sx sy); try reflexivity.
  now rewrite Pos.mul_comm, Z.add_comm.
Qed.

Lemma SFcompare_key (x y : spec_float) :
  x <> S754_nan -> y <> S754_nan ->
  SFcompare x y = Some (key_compare (SFkey x) (SFkey y)).
Proof.
  intros Hx Hy.
  destruct x as [sx|sx| |sx mx ex], y as [sy|sy| |sy my ey];
    try congruence;
    try destruct sx; try destruct sy; try reflexivity.
  cbn [SFcompare SFkey key_compare]. rewrite Z.compare_refl.
  rewrite Z.compare_opp, (Z.compare_antisym ex ey).
  destruct (ex ?= ey); reflexivity.
Qed.

Lemma key_compare_antisym (a b : Z * Z * Z) :
  key_compare b a = CompOpp (key_compare a b).
Proof.
  destruct a as [[r1 e1] m1], b as [[r2 e2] m2]. cbn [key_compare].
  rewrite (Z.compare_antisym r1 r2), (Z.compare_antisym e1 e2),
    (Z.compare_antisym m1 m2).
  destruct (r1 ?= r2), (e1 ?= e2), (m1 ?= m2); reflexivity.
Qed.

Lemma key_le_spec (a b : Z * Z * Z) :
  key_le a b <->
  let '(r1, e1, m1) := a in
  let '(r2, e2, m2) := b in
  r1 < r2 \/ (r1 = r2 /\ (e1 < e2 \/ (e1 = e2 /\ m1 <= m2))).
Proof.
  destruct a as [[r1 e1] m1], b as [[r2 e2] m2]. unfold key_le. cbn [key_compare].
  destruct (Z.compare_spec r1 r2), (Z.compare_spec e1 e2), (Z.compare_spec m1 m2);
    split; intro Hk; try lia; try discriminate; try congruence;
    try (exfalso; apply Hk; reflexivity).
Qed.

Lemma key_le_trans (a b c : Z * Z * Z) : key_le a b -> key_le b c -> key_le a c.
Proof.
  rewrite !key_le_spec.
  destruct a as [[r1 e1] m1], b as [[r2 e2] m2], c as [[r3 e3] m3]. lia.
Qed.

Lemma key_le_total (a b : Z * Z * Z) : key_le a b \/ key_le b a.
Proof.
  rewrite !key_le_spec.
  destruct a as [[r1 e1] m1], b as [[r2 e2] m2]. lia.
Qed.

(** [x == x] fails exactly for NaN. *)
Lemma is_nan_spec (x : float) :
  PrimFloat.is_nan x = false <-> Prim2SF x <> S754_nan.
Proof.
  unfold PrimFloat.is_nan. rewrite FloatAxioms.eqb_spec. unfold SFeqb.
  destruct (Prim2SF x) as [s|s| |s m e] eqn:Hx.
  - split; [discriminate | reflexivity].
  - split; [discriminate | destruct s; reflexivity].
  - split; [discriminate | intro H; now elim H].
  - split; [discriminate | intros _].
    rewrite SFcompare_key by discriminate.
    assert (Hrefl : key_compare (SFkey (S754_finite s m e)) (SFkey (S754_finite s m e)) = Eq).
    { destruct (SFkey (S754_finite s m e)) as [[r e'] m']. cbn [key_compare].
      now rewrite !Z.compare_refl. }
    now rewrite Hrefl.
Qed.

(** On non-NaN values [<=] is the order of the keys, and [<] its strict
    part. *)
Lemma float_leb_key (x y : float) :
  PrimFloat.is_nan x = false -> PrimFloat.is_nan y = false ->
  (PrimFloat.leb x y = true <-> key_le (SFkey (Prim2SF x)) (SFkey (Prim2SF y))).
Proof.
  intros Hx Hy. apply is_nan_spec in Hx. apply is_nan_spec in Hy.
  rewrite leb_spec. unfold SFleb, key_le. rewrite SFcompare_key by assumption.
  destruct (key_compare _ _); split; intro H; congruence.
Qed.

Lemma float_ltb_key (x y : float) :
  PrimFloat.is_nan x = false -> PrimFloat.is_nan y = false ->
  (PrimFloat.ltb x y = false <-> key_le (SFkey (Prim2SF y)) (SFkey (Prim2SF x))).
Proof.
  intros Hx Hy. apply is_nan_spec in Hx. apply is_nan_spec in Hy.
  rewrite ltb_spec. unfold SFltb, key_le. rewrite SFcompare_key by assumption.
  rewrite (key_compare_antisym (SFkey (Prim2SF x)) (SFkey (Prim2SF y))).
  destruct (key_compare _ _); cbn [CompOpp]; split; intro H; congruence.
Qed.

Lemma float_eqb_sym (x y : float) : PrimFloat.eqb x y = PrimFloat.eqb y x.
Proof.
  rewrite !FloatAxioms.eqb_spec. unfold SFeqb.
  destruct (Prim2SF x) as [sx|sx| |sx mx ex] eqn:Hx, (Prim2SF y) as [sy|sy| |sy my ey] eqn:Hy;
    try reflexivity;
    rewrite !SFcompare_key by discriminate;
    rewrite (key_compare_antisym (SFkey _) (SFkey _)) at 1;
    destruct (key_compare _ _); reflexivity.
Qed.

(** ** Distance, continued *)

Lemma is_or_eq_sym (a b : pyfloat) : is_or_eq a b = is_or_eq b a.
Proof. unfold is_or_eq. now rewrite N.eqb_sym, float_eqb_sym. Qed.

Lemma tuple_eq_sym (p q : position) : tuple_eq p q = tuple_eq q p.
Proof. unfold tuple_eq. now rewrite (is_or_eq_sym (fst p)), (is_or_eq_sym (snd p)). Qed.

Section Distance.
Context {M : PyMath}.

Lemma dot_comm (xyz0 xyz1 : float * float * float) : dot xyz0 xyz1 = dot xyz1 xyz0.
Proof.
  destruct xyz0 as [[x0 y0] z0], xyz1 as [[x1 y1] z1]. unfold dot.
  now rewrite (float_mul_comm x0), (float_mul_comm y0), (float_mul_comm z0).
Qed.

(** X5: With a [math] module whose [sin] and [cos] raise nothing but
    [ValueError], [get_distance] is symmetric: the same value or the same
    exception for the two orders of the positions. *)
Theorem get_distance_symmetric :
  (forall (x : float) (e : exn), math_sin x = Raise e -> e = ValueError) ->
  (forall (x : float) (e : exn), math_cos x = Raise e -> e = ValueError) ->
  forall (pos0 pos1 : position) (radious : float),
    get_distance pos0 pos1 radious = get_distance pos1 pos0 radious.
Proof.
  intros Hsin Hcos pos0 pos1 radious.
  assert (Hconv : forall lat lng,
             (exists xyz, _latlng_to_xyz lat lng = Ok xyz) \/
             _latlng_to_xyz lat lng = Raise ValueError).
  { intros lat lng. unfold _latlng_to_xyz.
    destruct (math_cos (radians lat)) as [c1|e] eqn:H1;
      [|right; now rewrite (Hcos _ _ H1)].
    cbn [bind].
    destruct (math_cos (radians lng)) as [c2|e] eqn:H2;
      [|right; now rewrite (Hcos _ _ H2)].
    cbn [bind].
    destruct (math_sin (radians lng)) as [s2|e] eqn:H3;
      [|right; now rewrite (Hsin _ _ H3)].
    cbn [bind].
    destruct (math_sin (radians lat)) as [s1|e] eqn:H4;
      [|right; now rewrite (Hsin _ _ H4)].
    left. eexists. reflexivity. }
  unfold get_distance. rewrite (tuple_eq_sym pos1 pos0).
  destruct (tuple_eq pos0 pos1); [reflexivity|].
  destruct (Hconv (fval (fst pos0)) (fval (snd pos0))) as [[xyz0 H0]|H0];
    destruct (Hconv (fval (fst pos1)) (fval (snd pos1))) as [[xyz1 H1]|H1];
    rewrite H0, H1; cbn [bind]; try reflexivity.
  now rewrite dot_comm.
Qed.

End Distance.

Lemma get_distance_symmetric_witness :
  get_distance (latlng rest3) (latlng north4) earth_rad =
  get_distance (latlng north4) (latlng rest3) earth_rad.
Proof.
  apply (get_distance_symmetric (M := approx_math)).
  - intros x e. cbn [math_sin approx_math]. unfold Approx.sin.
    destruct (PrimFloat.is_infinity x); congruence.
  - intros x e. cbn [math_cos approx_math]. unfold Approx.cos.
    destruct (PrimFloat.is_infinity x); congruence.
Defined.

(** ** Resampler, continued *)

Section ResamplerMore.
Context {M : PyMath}.

(** X6: On a raw stream whose timestamps never decrease, every raw sample is
    averaged into exactly one yielded sample, and the samples averaged
    into one are those with a timestamp in [[anchor, anchor + 10 s)]
    that were read from the anchor on. *)
Theorem get_point_ordered_windows (raw : list Point.t) :
  non_decreasing raw ->
  exists (bs : list (list Point.t)) (outs : list Point.t),
    get_point raw = Ok outs /\
    List.concat bs = raw /\
    Forall is_window_bucket bs /\
    adjacent closed_by bs /\
    Forall2 averages bs outs.
Proof.
  intro Hord.
  assert (H : exists bs outs,
             get_point raw = Ok outs /\ List.concat bs = raw /\
             Forall is_bucket bs /\ adjacent closed_by bs /\ Forall2 averages bs outs).
  { unfold get_point. destruct raw as [|point raw].
    - exists [], []. simpl. repeat split; constructor.
    - cbn [get_point_from].
      destruct (get_point_from_buckets raw [point] (fresh_ident (point :: raw)))
        as (extra & bs & outs & Hrun & Hcat & Hbs & Hadj & Havg); [simpl; constructor|].
      exists (([point] ++ extra) :: bs), outs. auto. }
  destruct H as (bs & outs & Hrun & Hcat & Hbs & Hadj & Havg).
  exists bs, outs. repeat (split; [assumption|]). split; [|split; assumption].
  apply buckets_of_ordered_stream; [rewrite Hcat|]; assumption.
Qed.

Lemma get_point_from_sparse (raw : list Point.t) :
  forall (p : Point.t) (fresh : N),
    window_separated (p :: raw) ->
    exists outs : list Point.t,
      get_point_from [p] fresh raw = Ok outs /\
      Forall2 (fun q out => averages [q] out) (p :: raw) outs.
Proof.
  induction raw as [|q raw IH]; intros p fresh Hsep.
  - destruct (average_bucket fresh p []) as [out [Hout Havg]].
    exists [out]. cbn [get_point_from]. rewrite Hout. cbn [bind].
    split; [reflexivity|]. constructor; [assumption | constructor].
  - destruct Hsep as [Hpq Hsep]. cbn [get_point_from].
    destruct (Z.ltb_spec (Point.timestamp q - Point.timestamp p) POINT_INTERVAL_TIME)
      as [Hin|_]; [lia|].
    destruct (average_bucket fresh p []) as [out [Hout Havg]].
    rewrite Hout. cbn [bind].
    destruct (IH q (fresh + 2)%N Hsep) as [outs [Hrun Hall]].
    rewrite Hrun. cbn [bind]. exists (out :: outs).
    split; [reflexivity|]. constructor; assumption.
Qed.

(** X7: A raw stream whose neighbours are already at least a window apart
    passes through one sample for one: as many samples are yielded as were
    read, with the same timestamps in the same order, each the average of
    the one raw sample. *)
Theorem get_point_sparse_stream (raw : list Point.t) :
  window_separated raw ->
  exists outs : list Point.t,
    get_point raw = Ok outs /\
    Forall2 (fun q out => averages [q] out) raw outs /\
    map Point.timestamp outs = map Point.timestamp raw.
Proof.
  intro Hsep.
  assert (H : exists outs, get_point raw = Ok outs /\
                           Forall2 (fun q out => averages [q] out) raw outs).
  { unfold get_point. destruct raw as [|p raw].
    - exists []. split; [reflexivity | constructor].
    - cbn [get_point_from]. apply get_point_from_sparse. exact Hsep. }
  destruct H as (outs & Hrun & Hall). exists outs.
  split; [assumption|]. split; [assumption|].
  clear Hrun Hsep. induction Hall as [|q out raw outs Hq _ IH]; [reflexivity|].
  cbn [map]. rewrite IH. destruct Hq as [-> _]. reflexivity.
Qed.

(** X8: [get_point] never yields more samples than it reads; it yields none
    exactly on an empty stream, and its first sample carries the timestamp
    of the first raw sample. *)
Theorem get_point_length (raw : list Point.t) :
  exists outs : list Point.t,
    get_point raw = Ok outs /\
    (List.length outs <= List.length raw)%nat /\
    (outs = [] <-> raw = []) /\
    option_map Point.timestamp (hd_error outs) = option_map Point.timestamp (hd_error raw).
Proof.
  assert (Hlen : forall bs : list (list Point.t),
             Forall is_bucket bs -> (List.length bs <= List.length (List.concat bs))%nat).
  { induction bs as [|b bs IH]; intro Hbs; [apply le_n|].
    inversion Hbs as [|b' bs' Hb Hrest]; subst.
    cbn [List.concat List.length]. rewrite length_app.
    destruct b as [|p0 rest]; [contradiction|].
    specialize (IH Hrest). cbn [List.length]. lia. }
  unfold get_point. destruct raw as [|point raw].
  - exists []. cbn. repeat split; auto.
  - cbn [get_point_from].
    destruct (get_point_from_buckets raw [point] (fresh_ident (point :: raw)))
      as (extra & bs & outs & Hrun & Hcat & Hbs & _ & Havg); [simpl; constructor|].
    exists outs. split; [assumption|].
    pose proof (Forall2_length Havg) as Hl.
    pose proof (Hlen _ Hbs) as Hle. rewrite Hcat in Hle.
    inversion Havg as [|b out bs' outs' Hb Hrest Heq1 Heq2]; subst.
    split; [|split].
    + rewrite <- Hl. exact Hle.
    + split; discriminate.
    + cbn [hd_error option_map]. cbn [app averages] in Hb.
      destruct Hb as [-> _]. reflexivity.
Qed.

End ResamplerMore.

Lemma get_point_ordered_windows_witness :
  exists (bs : list (list Point.t)) (outs : list Point.t),
    get_point dense_track = Ok outs /\
    List.concat bs = dense_track /\
    Forall is_window_bucket bs /\
    adjacent closed_by bs /\
    Forall2 averages bs outs.
Proof.
  apply (get_point_ordered_windows dense_track).
  vm_compute. repeat split; discriminate.
Defined.

Lemma get_point_sparse_stream_witness :
  exists outs : list Point.t,
    get_point sparse_track = Ok outs /\
    Forall2 (fun q out => averages [q] out) sparse_track outs /\
    map Point.timestamp outs = map Point.timestamp sparse_track.
Proof.
  apply (get_point_sparse_stream sparse_track).
  vm_compute. repeat split; discriminate.
Defined.

(** ** Track analyzer, continued *)

Lemma subsequence_nil_l {A : Type} (l : list A) : subsequence [] l.
Proof. induction l; constructor; assumption. Qed.

Section AnalyzerMore.
Context {M : PyMath}.

Lemma analyzer_step_route_added (min_speed min_turn : float) (st st' : analyzer)
      (point : Point.t) :
  analyzer_step min_speed min_turn st point = Ok st' ->
  route st' = route st \/ route st' = route st ++ [latlng point].
Proof.
  intro H. destruct (prev_point st) as [prev|] eqn:Hprev.
  - destruct (analyzer_step_next _ _ _ _ _ _ Hprev H) as (_ & _ & _ & _ & Hroute & _).
    rewrite Hroute. destruct (PrimFloat.leb _ _); auto.
  - rewrite analyzer_step_first in H by assumption. injection H as <-. auto.
Qed.

Lemma analyzer_loop_route_subsequence (min_speed min_turn : float) (points : list Point.t) :
  forall st st' : analyzer,
    analyzer_loop min_speed min_turn st points = Ok st' ->
    exists added : list position,
      route st' = route st ++ added /\ subsequence added (map latlng points).
Proof.
  induction points as [|p points IH]; intros st st' H; cbn [analyzer_loop] in H.
  - injection H as <-. exists []. rewrite app_nil_r. split; [reflexivity | constructor].
  - inv_bind H. destruct (IH _ _ H) as (added & Hadded & Hsub).
    destruct (analyzer_step_route_added _ _ _ _ _ Ha) as [Hsame|Hnew].
    + exists added. rewrite Hadded, Hsame. split; [reflexivity|].
      cbn [map]. now constructor.
    + exists (latlng p :: added). rewrite Hadded, Hnew, <- app_assoc.
      split; [reflexivity|]. cbn [map]. now constructor.
Qed.

(** X9: The route is the list of the samples' positions with some of them
    left out: the analyzer adds no vertex of its own, repeats none and
    keeps the order of the track. *)
Theorem route_is_subsequence
        (points : list Point.t) (stops : list StopPoint.t) (rt : list position) :
  analyze points = Ok (stops, rt) -> subsequence rt (map latlng points).
Proof.
  intro H. unfold analyze in H. inv_bind H. injection H as _ <-.
  destruct (analyzer_loop_route_subsequence _ _ _ _ _ Ha) as (added & Hadded & Hsub).
  rewrite Hadded. exact Hsub.
Qed.

Lemma always_stopped_loop (points : list Point.t) :
  forall st : analyzer,
    match prev_point st with
    | Some prev => always_stopped (prev :: points)
    | None => always_stopped points
    end ->
    exists st' : analyzer,
      get_stop_points_loop st points = Ok st' /\
      stop_points st' = stop_points st /\
      (prev_point st <> None -> points <> [] -> stop_point st' <> None) /\
      (prev_point st = None -> (2 <= List.length points)%nat -> stop_point st' <> None).
Proof.
  unfold get_stop_points_loop.
  induction points as [|p points IH]; intros st Hall.
  - exists st. cbn. repeat split; auto; intros; try congruence; lia.
  - cbn [analyzer_loop].
    destruct (prev_point st) as [prev|] eqn:Hprev.
    + destruct Hall as [(speed & Hspeed & Hlt) Hall].
      rewrite (analyzer_step_stopped _ _ _ _ _ _ Hprev Hspeed Hlt). cbn [bind].
      match goal with |- context [analyzer_loop _ _ ?s points] => set (st1 := s) end.
      destruct (IH st1 Hall) as (st' & Hrun & Hstops & Hopen & _).
      exists st'. split; [assumption|]. split; [assumption|].
      split; [|intro; congruence].
      intros _ _. destruct points as [|q points].
      * cbn in Hrun. injection Hrun as <-. subst st1. cbn. discriminate.
      * apply Hopen; subst st1; cbn; discriminate.
    + rewrite analyzer_step_first by assumption. cbn [bind].
      match goal with |- context [analyzer_loop _ _ ?s points] => set (st1 := s) end.
      destruct (IH st1 Hall) as (st' & Hrun & Hstops & Hopen & _).
      exists st'. split; [assumption|]. split; [assumption|].
      split; [congruence|].
      intros _ Hlen. apply Hopen; [subst st1; cbn; discriminate|].
      destruct points; [cbn in Hlen; lia | discriminate].
Qed.

(** X10: A track on which every step is classified as stopped returns no stop
    at all, however long it is: the one stop it opens, at the second
    sample, is still open when the samples run out and is not returned. *)
Theorem never_moving_returns_no_stop (points : list Point.t) :
  always_stopped points ->
  exists st : analyzer,
    get_stop_points_loop analyzer_init points = Ok st /\
    analyze points = Ok ([], route st) /\
    ((2 <= List.length points)%nat -> stop_point st <> None).
Proof.
  intro Hall.
  destruct (always_stopped_loop points analyzer_init Hall) as (st & Hrun & Hstops & _ & Hopen).
  exists st. split; [assumption|]. split.
  - unfold analyze. rewrite Hrun. cbn [bind]. rewrite Hstops. reflexivity.
  - apply Hopen. reflexivity.
Qed.

Lemma always_moving_loop (points : list Point.t) :
  forall st : analyzer,
    stop_point st = None ->
    match prev_point st with
    | Some prev => always_moving (prev :: points)
    | None => always_moving points
    end ->
    exists st' : analyzer,
      get_stop_points_loop st points = Ok st' /\
      stop_points st' = stop_points st /\ stop_point st' = None.
Proof.
  unfold get_stop_points_loop.
  induction points as [|p points IH]; intros st Hnone Hall.
  - exists st. cbn. auto.
  - cbn [analyzer_loop].
    destruct (prev_point st) as [prev|] eqn:Hprev.
    + destruct Hall as [(speed & Hspeed & Hlt) Hall].
      rewrite (analyzer_step_moving _ _ _ _ _ _ Hprev Hspeed Hlt). cbn [bind].
      rewrite Hnone.
      match goal with |- context [analyzer_loop _ _ ?s points] => set (st1 := s) end.
      destruct (IH st1 eq_refl Hall) as (st' & Hrun & Hstops & Hopen).
      exists st'. auto.
    + rewrite analyzer_step_first by assumption. cbn [bind].
      match goal with |- context [analyzer_loop _ _ ?s points] => set (st1 := s) end.
      destruct (IH st1 Hnone Hall) as (st' & Hrun & Hstops & Hopen).
      exists st'. auto.
Qed.

(** X11: A track on which every step is classified as moving opens no stop and
    returns none. *)
Theorem always_moving_returns_no_stop (points : list Point.t) :
  always_moving points ->
  exists st : analyzer,
    get_stop_points_loop analyzer_init points = Ok st /\
    stop_point st = None /\
    analyze points = Ok ([], route st).
Proof.
  intro Hall.
  destruct (always_moving_loop points analyzer_init eq_refl Hall) as (st & Hrun & Hstops & Hopen).
  exists st. split; [assumption|]. split; [assumption|].
  unfold analyze. rewrite Hrun. cbn [bind]. rewrite Hstops. reflexivity.
Qed.

End AnalyzerMore.

Lemma ForallOrdPairs_snoc {A : Type} (R : A -> A -> Prop) (l : list A) (x : A) :
  ForallOrdPairs R l -> Forall (fun a => R a x) l -> ForallOrdPairs R (l ++ [x]).
Proof.
  induction 1 as [|a l Ha Hl IH]; intro Hx.
  - cbn. constructor; constructor.
  - inversion Hx as [|a' l' Hax Hlx]; subst. cbn. constructor.
    + apply Forall_app. split; [assumption | constructor; [assumption | constructor]].
    + apply IH. assumption.
Qed.

Section StopsMore.
Context {M : PyMath}.

Lemma gap_invariant_step (w : timedelta) (min_speed min_turn : float)
      (st st' : analyzer) (point : Point.t) :
  0 <= w ->
  gap_invariant w st ->
  (forall prev, prev_point st = Some prev ->
                Point.timestamp prev + w <= Point.timestamp point) ->
  analyzer_step min_speed min_turn st point = Ok st' ->
  gap_invariant w st'.
Proof.
  intros Hw Hinv Hord Hstep. unfold gap_invariant in *.
  destruct (prev_point st) as [prev|] eqn:Hprev.
  - destruct Hinv as (Hpairs & Hclosed & Hopen).
    specialize (Hord prev eq_refl).
    destruct (analyzer_step_next _ _ _ _ _ _ Hprev Hstep)
      as (speed & _ & Hp & _ & _ & Hstop).
    rewrite Hp.
    destruct (PrimFloat.ltb speed min_speed).
    + destruct Hstop as [Hsame Hnew]. rewrite Hsame.
      split; [assumption|]. split.
      * eapply Forall_impl; [|exact Hclosed]. intros c Hc. cbn beta in Hc. lia.
      * intros sp' Hsp'. rewrite Hnew in Hsp'. injection Hsp' as <-.
        destruct (stop_point st) as [sp|] eqn:Hsp.
        -- destruct (Hopen sp eq_refl) as [Hafter Hend].
           cbn [StopPoint.start_time StopPoint.end_time].
           split; [assumption | lia].
        -- cbn [StopPoint.start_time StopPoint.end_time]. split; [|lia].
           eapply Forall_impl; [|exact Hclosed]. intros c Hc. cbn beta in Hc. lia.
    + destruct Hstop as [Hnone Hnew]. rewrite Hnew, Hnone.
      destruct (stop_point st) as [sp|] eqn:Hsp.
      * destruct (Hopen sp eq_refl) as [Hafter Hend].
        split; [apply ForallOrdPairs_snoc; assumption|].
        split; [|discriminate].
        apply Forall_app. split.
        -- eapply Forall_impl; [|exact Hclosed]. intros c Hc. cbn beta in Hc. lia.
        -- constructor; [lia | constructor].
      * split; [assumption|]. split; [|discriminate].
        eapply Forall_impl; [|exact Hclosed]. intros c Hc. cbn beta in Hc. lia.
  - destruct Hinv as [Hclosed Hopen].
    rewrite analyzer_step_first in Hstep by assumption. injection Hstep as <-.
    cbn. rewrite Hclosed, Hopen.
    split; [constructor|]. split; [constructor | discriminate].
Qed.

Lemma gap_invariant_loop (w : timedelta) (min_speed min_turn : float)
      (points : list Point.t) :
  0 <= w ->
  forall st st' : analyzer,
    gap_invariant w st ->
    match prev_point st with
    | Some prev =>
        adjacent (fun a b => Point.timestamp a + w <= Point.timestamp b) (prev :: points)
    | None => adjacent (fun a b => Point.timestamp a + w <= Point.timestamp b) points
    end ->
    analyzer_loop min_speed min_turn st points = Ok st' ->
    gap_invariant w st'.
Proof.
  intro Hw. induction points as [|p points IH]; intros st st' Hinv Hord Hloop;
    cbn [analyzer_loop] in Hloop.
  - now injection Hloop as <-.
  - inv_bind Hloop. apply (IH a st'); [| |assumption].
    + apply (gap_invariant_step w min_speed min_turn st a p); try assumption.
      intros prev Hprev. rewrite Hprev in Hord. apply Hord.
    + rewrite (analyzer_step_prev _ _ _ _ _ Ha).
      destruct (prev_point st); [apply Hord | exact Hord].
Qed.

Lemma gap_invariant_pairs (w : timedelta) (st : analyzer) :
  gap_invariant w st ->
  ForallOrdPairs (fun a b => StopPoint.end_time a + 2 * w <= StopPoint.start_time b)
                 (stop_points st).
Proof.
  unfold gap_invariant. destruct (prev_point st).
  - intros (H & _). exact H.
  - intros [-> _]. constructor.
Qed.

(** X12: On a resampled stream whose timestamps never decrease, the stops
    returned are in chronological order and do not overlap: each one ends
    no later than every later one starts. *)
Theorem stops_in_chronological_order
        (points : list Point.t) (stops : list StopPoint.t) (rt : list position) :
  non_decreasing points ->
  analyze points = Ok (stops, rt) ->
  ForallOrdPairs (fun a b => StopPoint.end_time a <= StopPoint.start_time b) stops.
Proof.
  intros Hord H. unfold analyze in H. inv_bind H. injection H as <- _.
  assert (Hinv : gap_invariant 0 a).
  { apply (gap_invariant_loop 0 MIN_SPEED MIN_TURN points ltac:(lia) analyzer_init a);
      [split; reflexivity | | exact Ha].
    cbn [prev_point analyzer_init]. unfold non_decreasing in Hord.
    clear - Hord. induction points as [|x [|y l] IH]; cbn in *; auto.
    destruct Hord as [Hxy Hord]. split; [lia | apply IH; exact Hord]. }
  apply gap_invariant_pairs in Hinv.
  clear - Hinv. induction Hinv as [|c l Hc Hl IH]; constructor; [|assumption].
  eapply Forall_impl; [|exact Hc]. intros b Hb. cbn beta in Hb. lia.
Qed.

(** X13: Through the resampler, for every raw stream: any two stops
    [get_stop_points] returns are at least two window widths (20 s) apart,
    the earlier one first. *)
Theorem returned_stops_apart
        (raw : list Point.t) (stops : list StopPoint.t) (rt : list position) :
  get_stop_points raw = Ok (stops, rt) ->
  ForallOrdPairs
    (fun a b => StopPoint.end_time a + 2 * POINT_INTERVAL_TIME <= StopPoint.start_time b)
    stops.
Proof.
  intro H. unfold get_stop_points in H. inv_bind H.
  unfold analyze in H. inv_bind H. injection H as <- _.
  assert (Hsep : window_separated a).
  { unfold get_point in Ha. destruct raw as [|point raw].
    - injection Ha as <-. exact I.
    - cbn [get_point_from] in Ha.
      destruct (get_point_from_buckets raw [point] (fresh_ident (point :: raw)))
        as (extra & bs & outs & Hrun & _ & _ & Hadj & Havg); [simpl; constructor|].
      rewrite Hrun in Ha. injection Ha as <-.
      eapply averages_separated; eassumption. }
  apply gap_invariant_pairs.
  apply (gap_invariant_loop POINT_INTERVAL_TIME MIN_SPEED MIN_TURN a
           ltac:(unfold POINT_INTERVAL_TIME, timedelta_of_seconds; lia) analyzer_init a0);
    [split; reflexivity | exact Hsep | exact Ha0].
Qed.

Lemma stop_on_samples_more (seen : list Point.t) (p : Point.t) (sp : StopPoint.t) :
  stop_on_samples seen sp -> stop_on_samples (seen ++ [p]) sp.
Proof.
  intros (a & b & Ha & Hb & H). exists a, b.
  split; [apply in_or_app; now left|]. split; [apply in_or_app; now left | exact H].
Qed.

Lemma origin_invariant_step (min_speed min_turn : float) (seen : list Point.t)
      (st st' : analyzer) (point : Point.t) :
  origin_invariant seen st ->
  analyzer_step min_speed min_turn st point = Ok st' ->
  origin_invariant (seen ++ [point]) st'.
Proof.
  intros [Hclosed Hopen] Hstep.
  assert (Hclosed' : Forall (stop_on_samples (seen ++ [point])) (stop_points st)).
  { eapply Forall_impl; [|exact Hclosed]. intros c. apply stop_on_samples_more. }
  assert (Hlast : In point (seen ++ [point])) by (apply in_or_app; right; now left).
  destruct (prev_point st) as [prev|] eqn:Hprev.
  - destruct (analyzer_step_next _ _ _ _ _ _ Hprev Hstep)
      as (speed & _ & _ & _ & _ & Hstop).
    destruct (PrimFloat.ltb speed min_speed).
    + destruct Hstop as [Hsame Hnew]. split; [rewrite Hsame; assumption|].
      intros sp' Hsp'. rewrite Hnew in Hsp'. injection Hsp' as <-.
      destruct (stop_point st) as [sp|] eqn:Hsp.
      * destruct (stop_on_samples_more seen point sp (Hopen sp eq_refl))
          as (a & b & Ha & Hb & Hlat & Hlng & Hstart & Hend).
        exists a, point. cbn. auto 10.
      * exists point, point. cbn. auto 10.
    + destruct Hstop as [Hnone Hnew]. split; [|intros sp' Hsp'; congruence].
      rewrite Hnew. destruct (stop_point st) as [sp|] eqn:Hsp; [|assumption].
      apply Forall_app. split; [assumption|].
      constructor; [|constructor]. apply stop_on_samples_more, Hopen. reflexivity.
  - rewrite analyzer_step_first in Hstep by assumption. injection Hstep as <-.
    split; [assumption|]. cbn. intros sp Hsp. apply stop_on_samples_more, Hopen, Hsp.
Qed.

Lemma origin_invariant_loop (min_speed min_turn : float) (points : list Point.t) :
  forall (seen : list Point.t) (st st' : analyzer),
    origin_invariant seen st ->
    analyzer_loop min_speed min_turn st points = Ok st' ->
    origin_invariant (seen ++ points) st'.
Proof.
  induction points as [|p points IH]; intros seen st st' Hinv Hloop;
    cbn [analyzer_loop] in Hloop.
  - injection Hloop as <-. now rewrite app_nil_r.
  - inv_bind Hloop.
    replace (seen ++ p :: points) with ((seen ++ [p]) ++ points)
      by (rewrite <- app_assoc; reflexivity).
    apply (IH _ a st'); [|assumption].
    eapply origin_invariant_step; eassumption.
Qed.

(** X14: Every stop returned sits on the track: it has the latitude and the
    longitude of one sample of the stream and starts at that sample's
    timestamp, and it ends at the timestamp of a sample of the stream
    (both times shifted by the display offset). *)
Theorem stops_sit_on_samples
        (points : list Point.t) (stops : list StopPoint.t) (rt : list position) :
  analyze points = Ok (stops, rt) -> Forall (stop_on_samples points) stops.
Proof.
  intro H. unfold analyze in H. inv_bind H. injection H as <- _.
  apply (origin_invariant_loop MIN_SPEED MIN_TURN points [] analyzer_init a); [|exact Ha].
  split; [constructor | discriminate].
Qed.

End StopsMore.

(** A bearing compared with itself never reaches the heading threshold:
    the difference is zero, or NaN for an infinite or NaN bearing. *)
Lemma same_bearing_below_threshold (v : float) :
  PrimFloat.leb MIN_TURN (PrimFloat.abs (PrimFloat.sub v v)) = false.
Proof.
  rewrite leb_spec, abs_spec, sub_spec. unfold SF64sub, SFsub.
  destruct (Prim2SF v) as [s|s| |s m e].
  - destruct s; reflexivity.
  - destruct s; reflexivity.
  - reflexivity.
  - cbv zeta. rewrite Z.sub_diag. reflexivity.
Qed.

Section Straight.
Context {M : PyMath}.

(** X15: A sample reached on the same bearing as the step before it is never
    added to the route, however far it is: on a straight stretch only the
    sample where the bearing first changed is kept. *)
Theorem same_bearing_adds_no_vertex (st st' : analyzer) (prev point : Point.t) :
  prev_point st = Some prev ->
  get_vector (latlng prev) (latlng point) = prev_vector st ->
  get_stop_points_loop st [point] = Ok st' ->
  route st' = route st /\ prev_vector st' = prev_vector st.
Proof.
  intros Hprev Hsame Hstep. unfold get_stop_points_loop in Hstep.
  cbn [analyzer_loop] in Hstep. inv_bind Hstep. injection Hstep as <-.
  destruct (analyzer_step_next _ _ _ _ _ _ Hprev Ha) as (_ & _ & _ & Hvec & Hroute & _).
  rewrite Hroute, Hvec, Hsame, same_bearing_below_threshold. auto.
Qed.

End Straight.

(** ** The further properties on concrete tracks *)

Lemma route_is_subsequence_witness :
  subsequence [latlng rest1; latlng north4; latlng east5] (map latlng rest_track).
Proof.
  apply (route_is_subsequence rest_track [rest_stop]).
  vm_compute. reflexivity.
Defined.

Lemma never_moving_returns_no_stop_witness :
  exists st : analyzer,
    get_stop_points_loop analyzer_init parked_track = Ok st /\
    analyze parked_track = Ok ([], route st) /\
    ((2 <= List.length parked_track)%nat -> stop_point st <> None).
Proof.
  apply (never_moving_returns_no_stop parked_track).
  repeat (split; [exists 0%float; split; reflexivity|]). exact I.
Defined.

Lemma always_moving_returns_no_stop_witness :
  exists st : analyzer,
    get_stop_points_loop analyzer_init moving_track = Ok st /\
    stop_point st = None /\
    analyze moving_track = Ok ([], route st).
Proof.
  apply (always_moving_returns_no_stop moving_track).
  repeat (split; [eexists; split; [vm_compute; reflexivity | reflexivity]|]). exact I.
Defined.

Lemma stops_in_chronological_order_witness :
  ForallOrdPairs (fun a b => StopPoint.end_time a <= StopPoint.start_time b)
                 [rest_stop; stay_stop].
Proof.
  eapply (stops_in_chronological_order two_stop_track [rest_stop; stay_stop]).
  - vm_compute. repeat split; discriminate.
  - vm_compute. reflexivity.
Defined.

Lemma returned_stops_apart_witness :
  exists (stops : list StopPoint.t) (rt : list position),
    get_stop_points two_stop_track = Ok (stops, rt) /\
    List.length stops = 2%nat /\
    ForallOrdPairs
      (fun a b => StopPoint.end_time a + 2 * POINT_INTERVAL_TIME <= StopPoint.start_time b)
      stops.
Proof.
  eexists. eexists. split; [vm_compute; reflexivity|]. split; [reflexivity|].
  eapply (returned_stops_apart two_stop_track). vm_compute. reflexivity.
Defined.

Lemma stops_sit_on_samples_witness :
  Forall (stop_on_samples two_stop_track) [rest_stop; stay_stop].
Proof.
  eapply (stops_sit_on_samples two_stop_track). vm_compute. reflexivity.
Defined.

Lemma same_bearing_adds_no_vertex_witness :
  exists st st' : analyzer,
    get_stop_points_loop analyzer_init [sample 0 0 35 139; sample 1 10 35.001 139] = Ok st /\
    get_stop_points_loop analyzer_init straight_track = Ok st' /\
    route st' = route st /\ prev_vector st' = prev_vector st.
Proof.
  eexists. eexists. split; [vm_compute; reflexivity|].
  split; [vm_compute; reflexivity|].
  eapply (same_bearing_adds_no_vertex _ _ (sample 1 10 35.001 139) (sample 2 20 35.002 139)).
  - reflexivity.
  - vm_compute. reflexivity.
  - vm_compute. reflexivity.
Defined.

(** ** Presentation *)

Lemma float_ltb_leb (x y : float) : PrimFloat.ltb x y = true -> PrimFloat.leb x y = true.
Proof.
  rewrite ltb_spec, leb_spec. unfold SFltb, SFleb.
  destruct (SFcompare (Prim2SF x) (Prim2SF y)) as [[| |]|]; congruence.
Qed.

Lemma float_not_ltb_leb (x y : float) :
  PrimFloat.is_nan x = false -> PrimFloat.is_nan y = false ->
  PrimFloat.ltb y x = false -> PrimFloat.leb x y = true.
Proof.
  intros Hx Hy H. apply float_leb_key; [assumption..|].
  apply (float_ltb_key y x); assumption.
Qed.

Lemma float_leb_trans (x y z : float) :
  PrimFloat.is_nan x = false -> PrimFloat.is_nan y = false -> PrimFloat.is_nan z = false ->
  PrimFloat.leb x y = true -> PrimFloat.leb y z = true -> PrimFloat.leb x z = true.
Proof.
  intros Hx Hy Hz. rewrite !float_leb_key by assumption. apply key_le_trans.
Qed.

Lemma float_leb_refl (x : float) :
  PrimFloat.is_nan x = false -> PrimFloat.leb x x = true.
Proof.
  intro Hx. apply float_not_ltb_leb; try assumption.
  destruct (PrimFloat.ltb x x) eqn:H; [|reflexivity].
  pose proof (float_ltb_leb _ _ H) as Hle.
  rewrite ltb_spec in H. unfold SFltb in H.
  apply is_nan_spec in Hx. rewrite SFcompare_key in H by assumption.
  assert (Hrefl : key_compare (SFkey (Prim2SF x)) (SFkey (Prim2SF x)) = Eq).
  { destruct (SFkey (Prim2SF x)) as [[r e] m]. cbn [key_compare].
    now rewrite !Z.compare_refl. }
  rewrite Hrefl in H. discriminate.
Qed.

(** The fold of [min]: the result is an element, below the start and
    below every element folded in, when no NaN is involved. *)
Lemma py_min_fold (rest : list pyfloat) :
  forall acc : pyfloat,
    let r := fold_left (fun smallest item =>
                          if PrimFloat.ltb (fval item) (fval smallest) then item else smallest)
                       rest acc in
    In r (acc :: rest) /\
    (Forall (fun x => PrimFloat.is_nan (fval x) = false) (acc :: rest) ->
     Forall (fun x => PrimFloat.leb (fval r) (fval x) = true) (acc :: rest)).
Proof.
  induction rest as [|y rest IH]; intro acc; cbn zeta.
  - cbn [fold_left]. split; [now left|].
    intro Hnan. inversion Hnan as [|a l Ha _]; subst.
    constructor; [apply float_leb_refl; assumption | constructor].
  - cbn [fold_left].
    set (acc' := if PrimFloat.ltb (fval y) (fval acc) then y else acc).
    specialize (IH acc'). cbn zeta in IH. destruct IH as [Hin Hle].
    split.
    + destruct Hin as [Hin|Hin]; [|right; right; exact Hin].
      rewrite <- Hin. unfold acc'. destruct (PrimFloat.ltb (fval y) (fval acc)); auto using in_eq, in_cons.
    + intro Hnan. inversion Hnan as [|a l Hacc Hrest]; subst.
      inversion Hrest as [|a l Hy Hrest']; subst.
      assert (Hacc' : PrimFloat.is_nan (fval acc') = false)
        by (unfold acc'; destruct (PrimFloat.ltb (fval y) (fval acc)); assumption).
      specialize (Hle (Forall_cons _ Hacc' Hrest')).
      inversion Hle as [|a l Hr Hrest'']; subst.
      set (r := fold_left _ rest acc') in *.
      assert (Hrn : PrimFloat.is_nan (fval r) = false).
      { destruct Hin as [Hin|Hin]; [rewrite <- Hin; assumption|].
        rewrite Forall_forall in Hrest'. apply Hrest'. exact Hin. }
      assert (Hboth : PrimFloat.leb (fval r) (fval acc) = true /\
                      PrimFloat.leb (fval r) (fval y) = true).
      { unfold acc' in Hr. destruct (PrimFloat.ltb (fval y) (fval acc)) eqn:Hlt.
        - split; [|assumption].
          apply (float_leb_trans _ (fval y)); try assumption.
          apply float_ltb_leb; assumption.
        - split; [assumption|].
          apply (float_leb_trans _ (fval acc)); try assumption.
          apply float_not_ltb_leb; assumption. }
      destruct Hboth. repeat (constructor; [assumption|]). assumption.
Qed.

Lemma py_max_fold (rest : list pyfloat) :
  forall acc : pyfloat,
    let r := fold_left (fun largest item =>
                          if PrimFloat.ltb (fval largest) (fval item) then item else largest)
                       rest acc in
    In r (acc :: rest) /\
    (Forall (fun x => PrimFloat.is_nan (fval x) = false) (acc :: rest) ->
     Forall (fun x => PrimFloat.leb (fval x) (fval r) = true) (acc :: rest)).
Proof.
  induction rest as [|y rest IH]; intro acc; cbn zeta.
  - cbn [fold_left]. split; [now left|].
    intro Hnan. inversion Hnan as [|a l Ha _]; subst.
    constructor; [apply float_leb_refl; assumption | constructor].
  - cbn [fold_left].
    set (acc' := if PrimFloat.ltb (fval acc) (fval y) then y else acc).
    specialize (IH acc'). cbn zeta in IH. destruct IH as [Hin Hle].
    split.
    + destruct Hin as [Hin|Hin]; [|right; right; exact Hin].
      rewrite <- Hin. unfold acc'. destruct (PrimFloat.ltb (fval acc) (fval y)); auto using in_eq, in_cons.
    + intro Hnan. inversion Hnan as [|a l Hacc Hrest]; subst.
      inversion Hrest as [|a l Hy Hrest']; subst.
      assert (Hacc' : PrimFloat.is_nan (fval acc') = false)
        by (unfold acc'; destruct (PrimFloat.ltb (fval acc) (fval y)); assumption).
      specialize (Hle (Forall_cons _ Hacc' Hrest')).
      inversion Hle as [|a l Hr Hrest'']; subst.
      set (r := fold_left _ rest acc') in *.
      assert (Hrn : PrimFloat.is_nan (fval r) = false).
      { destruct Hin as [Hin|Hin]; [rewrite <- Hin; assumption|].
        rewrite Forall_forall in Hrest'. apply Hrest'. exact Hin. }
      assert (Hboth : PrimFloat.leb (fval acc) (fval r) = true /\
                      PrimFloat.leb (fval y) (fval r) = true).
      { unfold acc' in Hr. destruct (PrimFloat.ltb (fval acc) (fval y)) eqn:Hlt.
        - split; [|assumption].
          apply (float_leb_trans _ (fval y)); try assumption.
          apply float_ltb_leb; assumption.
        - split; [assumption|].
          apply (float_leb_trans _ (fval acc)); try assumption.
          apply float_not_ltb_leb; assumption. }
      destruct Hboth. repeat (constructor; [assumption|]). assumption.
Qed.

Lemma py_min_spec (xs : list pyfloat) (m : pyfloat) :
  py_min xs = Ok m ->
  In m xs /\
  (Forall (fun x => PrimFloat.is_nan (fval x) = false) xs ->
   Forall (fun x => PrimFloat.leb (fval m) (fval x) = true) xs).
Proof.
  destruct xs as [|x rest]; [discriminate|]. cbn [py_min]. intro H. injection H as <-.
  apply py_min_fold.
Qed.

Lemma py_max_spec (xs : list pyfloat) (m : pyfloat) :
  py_max xs = Ok m ->
  In m xs /\
  (Forall (fun x => PrimFloat.is_nan (fval x) = false) xs ->
   Forall (fun x => PrimFloat.leb (fval x) (fval m) = true) xs).
Proof.
  destruct xs as [|x rest]; [discriminate|]. cbn [py_max]. intro H. injection H as <-.
  apply py_max_fold.
Qed.

(** X16: The corners [get_bounds_of_route] returns are made of coordinates of
    the route, and when no coordinate of the route is NaN every vertex of
    the route lies in the box they span. *)
Theorem get_bounds_of_route_encloses (route : list position) (bounds : position * position) :
  get_bounds_of_route route = Ok bounds ->
  (In (fst (fst bounds)) (map fst route) /\ In (snd (fst bounds)) (map snd route) /\
   In (fst (snd bounds)) (map fst route) /\ In (snd (snd bounds)) (map snd route)) /\
  (route_without_nan route -> Forall (in_box bounds) route).
Proof.
  intro H. unfold get_bounds_of_route in H.
  inv_bind H. inv_bind H. inv_bind H. inv_bind H. injection H as <-.
  destruct (py_min_spec _ _ Ha) as [Hin0 Hle0].
  destruct (py_min_spec _ _ Ha0) as [Hin1 Hle1].
  destruct (py_max_spec _ _ Ha1) as [Hin2 Hle2].
  destruct (py_max_spec _ _ Ha2) as [Hin3 Hle3].
  split; [cbn [fst snd]; auto|].
  intro Hnan. unfold route_without_nan in Hnan.
  assert (Hlat : Forall (fun x => PrimFloat.is_nan (fval x) = false) (map fst route)).
  { apply Forall_map. eapply Forall_impl; [|exact Hnan]. intros p [Hp _]. exact Hp. }
  assert (Hlng : Forall (fun x => PrimFloat.is_nan (fval x) = false) (map snd route)).
  { apply Forall_map. eapply Forall_impl; [|exact Hnan]. intros p [_ Hp]. exact Hp. }
  specialize (Hle0 Hlat). specialize (Hle1 Hlng).
  specialize (Hle2 Hlat). specialize (Hle3 Hlng).
  rewrite Forall_map in Hle0, Hle1, Hle2, Hle3.
  rewrite Forall_forall in *. intros p Hp. unfold in_box.
  repeat split; [apply Hle0 | apply Hle2 | apply Hle1 | apply Hle3]; exact Hp.
Qed.

Lemma get_bounds_of_route_encloses_witness :
  Forall (in_box ((PyFloat 0 35, PyFloat 1 139), (PyFloat 6 35.001, PyFloat 9 139.001)))
         [latlng rest1; latlng north4; latlng east5].
Proof.
  apply (get_bounds_of_route_encloses [latlng rest1; latlng north4; latlng east5]).
  - vm_compute. reflexivity.
  - repeat constructor.
Defined.

(** With a NaN coordinate the box can miss vertices: [min] and [max] keep
    a leading NaN. *)
Example get_bounds_of_route_nan :
  get_bounds_of_route nan_route =
  Ok ((PyFloat 0 PrimFloat.nan, PyFloat 1 139), (PyFloat 0 PrimFloat.nan, PyFloat 3 140)).
Proof. vm_compute. reflexivity. Qed.

Section Marks.
Context {F : PyFormat}.



(** X18: A stop that is marked and lasts less than a day is labelled with its
    duration rounded to the minute, halves upward, which is at least 5. *)
Theorem marked_stop_minutes (sp : StopPoint.t) :
  is_marked sp = true ->
  StopPoint.end_time sp - StopPoint.start_time sp < one_day ->
  exists m : Z,
    get_elapsed_time sp = Ok m /\
    m = elapsed_minutes_spec sp /\
    5 <= m <= 1440.
Proof.
  intros Hmarked Hday. unfold is_marked in Hmarked.
  apply negb_true_iff in Hmarked. apply Z.ltb_ge in Hmarked.
  unfold MIN_STOP, timedelta_of_minutes, timedelta_of_seconds in Hmarked.
  unfold one_day in Hday.
  exists (elapsed_minutes_spec sp).
  split; [apply get_elapsed_time_within_a_day; [lia | assumption]|].
  split; [reflexivity|].
  unfold elapsed_minutes_spec. rewrite round_half_up_minutes by lia.
  unfold timedelta_of_hours, timedelta_of_seconds in Hday.
  assert (300 <= (StopPoint.end_time sp - StopPoint.start_time sp) / 1000000)
    by (apply Z.div_le_lower_bound; lia).
  assert ((StopPoint.end_time sp - StopPoint.start_time sp) / 1000000 < 86400)
    by (apply Z.div_lt_upper_bound; lia).
  split.
  - apply Z.div_le_lower_bound; lia.
  - enough (((StopPoint.end_time sp - StopPoint.start_time sp) / 1000000 + 30) / 60 < 1441)
      by lia.
    apply Z.div_lt_upper_bound; lia.
Qed.

End Marks.

Lemma marked_stop_minutes_witness :
  exists m : Z,
    get_elapsed_time short_stop = Ok m /\
    m = elapsed_minutes_spec short_stop /\
    5 <= m <= 1440.
Proof.
  apply (marked_stop_minutes short_stop); [reflexivity | vm_compute; reflexivity].
Defined.

Example _mark_stops_example :
  _mark_stops [] [brief_stop; short_stop] =
  Ok [Marker (PyFloat 0 35, PyFloat 1 139)
             ("0-450" ++ newline ++ "8m <a href=" ++ dquote
                ++ "https://maps.google.co.jp/maps?q=35,139" ++ dquote
                ++ " target=" ++ dquote ++ "_blank" ++ dquote
                ++ " rel=" ++ dquote ++ "noopener noreferrer" ++ dquote
                ++ ">googlemap</a>")%string
             false;
      CircleMarker (PyFloat 0 35, PyFloat 1 139) "#00aa00" 2%float].
Proof. vm_compute. reflexivity. Qed.

Section ProgramProperties.
Context {M : PyMath} {F : PyFormat}.






End ProgramProperties.

